(** * GP_emu_UQSA: the orchestration layer [gp_emu/emulatorfunctions.py]

    The file embeds the three functions of [emulatorfunctions.py]
    ([setup], [train], [plot]) as programs of a small state, error and
    trace monad.  Everything the three functions call lives in other
    modules of the package ([_emulatorclasses], [_emulatoroptimise],
    [emulatorkernels], [emulatorplotting]); those calls are answered by an
    environment [ext], a parameter of the development, and every call is
    recorded in the trace with its reply and the state it left behind. *)

From Stdlib Require Import QArith Ascii String DecimalString Lia.
From stdpp Require Import base list strings.

Local Open Scope string_scope.
Local Open Scope list_scope.

(** ** Python values crossing the module boundary *)

Inductive SeqKind := PyList | PyTuple | NdArray.

#[warnings="-register-all"]
Inductive Val :=
| VNone
| VBool (b : bool)
| VInt (n : Z)
| VFloat (q : Q)
| VStr (s : string)
| VSeq (k : SeqKind) (xs : list Val)
| VObj (id : positive).

(** Exceptions.  The first four are raised by the interpreter itself;
    [Raised] is whatever a collaborator raised. *)
Inductive Exn :=
| IndexError
| TypeError
| ValueError
| AttributeError
| Raised (what : Val).

(** The items of a numpy array, row after row; a value that is no numpy
    array is one item. *)
Fixpoint np_flat (v : Val) : list Val :=
  match v with
  | VSeq NdArray xs =>
      (fix all (l : list Val) : list Val :=
         match l with
         | [] => []
         | x :: r => np_flat x ++ all r
         end) xs
  | _ => [v]
  end.

(** The truth of a value that is no numpy array. *)
Definition scalar_truth (v : Val) : bool :=
  match v with
  | VNone => false
  | VBool b => b
  | VInt n => negb (n =? 0)%Z
  | VFloat q => negb (Qeq_bool q 0)
  | VStr s => negb (String.eqb s "")
  | VSeq _ xs => match xs with [] => false | _ => true end
  | VObj _ => true
  end.

(** Truth value testing, as [while] and [if] apply it to a call's result.
    A numpy array of one item has the truth of that item and an empty one is
    false; for an array of more items the test raises [ValueError], which is
    [None] here. *)
Definition truth (v : Val) : option bool :=
  match v with
  | VSeq NdArray _ =>
      match np_flat v with
      | [] => Some false
      | [x] => Some (scalar_truth x)
      | _ => None
      end
  | _ => Some (scalar_truth v)
  end.

(** The test came out true. *)
Definition truthy (v : Val) : bool := default false (truth v).

(** [v != 0] for a value that is no numpy array: numbers compare by
    value, anything else differs from [0]. *)
Definition scalar_ne_zero (v : Val) : bool :=
  match v with
  | VBool b => b
  | VInt n => negb (n =? 0)%Z
  | VFloat q => negb (Qeq_bool q 0)
  | _ => true
  end.

(** The truth of [v != 0], as an [if] takes it.  A numpy array is compared
    item by item and the result is an array again, tested as in [truth]. *)
Definition ne_zero_truth (v : Val) : option bool :=
  match v with
  | VSeq NdArray _ =>
      match np_flat v with
      | [] => Some false
      | [x] => Some (scalar_ne_zero x)
      | _ => None
      end
  | _ => Some (scalar_ne_zero v)
  end.

(** [v != 0] came out true. *)
Definition ne_zero (v : Val) : bool := default false (ne_zero_truth v).

(** ** Calls into the other modules of the package *)

Module Fn.
Inductive t :=
| Config | Beliefs | Hyperparams | Basis | TV_config | All_Data
| build_kernel | auto_configure_kernel
| Data | Posterior | Optimize | Emulator
| make_inputs | plotting.
End Fn.

Module Meth.
Inductive t :=
| choose_T | choose_V | choose_new_V
| auto_train | doing_training | check_still_training | next_Vset
| do_final_build
| llhoptimize_full
| remake
| mahalanobis_distance | indiv_standard_error
| incVinT
| final_beliefs | final_design_points
| __str__.
End Meth.

Module Attr.
Inductive t := beliefs | tv_config | inputs | outputs | noV | output.
End Attr.

Inductive Call :=
| CallFn (f : Fn.t) (args : list Val) (kwargs : list (string * Val))
| CallMeth (self : Val) (m : Meth.t) (args : list Val) (kwargs : list (string * Val))
| GetAttr (obj : Val) (a : Attr.t).

Inductive Reply := Returns (v : Val) | Raises (e : Exn).

(** What an observer of the program sees, replies and states left out. *)
Inductive Action := Do (c : Call) | Say (s : string).

(** ** The Emulator aggregate *)

(** Modelled from the spec: the [Emulator] class of [_emulatorclasses] is
    not part of this file.  It is the aggregate of section 3 of the
    specification, owning one instance of each component; its attributes
    are named as [train] and [plot] read them and hold what [setup] passes
    to the constructor, in the constructor's order.  [this] is the object
    itself, as handed to [final_beliefs] and [final_design_points]. *)
Record Emulator := {
  this : Val;
  config : Val;
  beliefs : Val;
  par : Val;
  basis : Val;
  tv_conf : Val;
  all_data : Val;
  training : Val;
  validation : Val;
  post : Val;
  opt_T : Val;
  K : Val
}.

(** ** The monad: state, exceptions, fuel and a trace *)

Inductive Outcome (A : Type) :=
| Ok (a : A)
| Err (e : Exn)
| OutOfFuel.
Arguments Ok {A} a.
Arguments Err {A} e.
Arguments OutOfFuel {A}.

Inductive Event (W : Type) :=
| Called (c : Call) (r : Reply) (after : W)
| Printed (s : string).
Arguments Called {W} c r after.
Arguments Printed {W} s.

Definition action_of {W} (e : Event W) : Action :=
  match e with
  | Called c _ _ => Do c
  | Printed s => Say s
  end.

Definition actions {W} (tr : list (Event W)) : list Action := map action_of tr.
Arguments actions {W} tr : simpl never.

Definition M (W A : Type) : Type := W -> Outcome A * W * list (Event W).

Definition ret {W A} (a : A) : M W A := fun w => (Ok a, w, []).

Definition raise {W A} (e : Exn) : M W A := fun w => (Err e, w, []).

Definition out_of_fuel {W A} : M W A := fun w => (OutOfFuel, w, []).

(** A computation that touches neither the state nor the environment. *)
Definition lift {W A} (o : Outcome A) : M W A := fun w => (o, w, []).

Definition bind {W A B} (m : M W A) (k : A -> M W B) : M W B :=
  fun w =>
    match m w with
    | (Ok a, w1, t1) =>
        match k a w1 with
        | (r, w2, t2) => (r, w2, t1 ++ t2)
        end
    | (Err e, w1, t1) => (Err e, w1, t1)
    | (OutOfFuel, w1, t1) => (OutOfFuel, w1, t1)
    end.

Notation "x <- m ;; k" := (bind m (fun x => k))
  (at level 100, m at next level, right associativity).
Notation "m ;; k" := (bind m (fun _ => k))
  (at level 100, right associativity).

Definition print {W} (s : string) : M W unit :=
  fun w => (Ok tt, w, [Printed s]).

(** The result, the final state and the trace of a run. *)
Definition outcome {W A} (x : Outcome A * W * list (Event W)) : Outcome A := x.1.1.
Definition final {W A} (x : Outcome A * W * list (Event W)) : W := x.1.2.
Definition trace {W A} (x : Outcome A * W * list (Event W)) : list (Event W) := x.2.
Arguments outcome {W A} !x /.
Arguments final {W A} !x /.
Arguments trace {W A} !x /.

Section Program.
Context {W : Type}.

(** The environment: how the rest of the package answers a call. *)
Variable ext : Call -> W -> Reply * W.

Definition call (c : Call) : M W Val :=
  fun w =>
    match ext c w with
    | (Returns v, w') => (Ok v, w', [Called c (Returns v) w'])
    | (Raises e, w') => (Err e, w', [Called c (Raises e) w'])
    end.

(** [while cond: body], cut off after [fuel] evaluations of the guard. *)
Fixpoint while (fuel : nat) (cond : M W bool) (body : M W unit) : M W unit :=
  match fuel with
  | O => out_of_fuel
  | S n =>
      b <- cond ;;
      if b then body ;; while n cond body else ret tt
  end.

Definition nl : string := String "010"%char "".

(** The test of an [if] or a [while] on the value [v]: [t] is [truth], or
    [ne_zero_truth] for [v != 0]. *)
Definition test (t : Val -> option bool) (v : Val) : M W bool :=
  match t v with
  | Some b => ret b
  | None => raise ValueError
  end.

(** *** [train], lines 58 to 119 *)

(** Lines 76 to 90: optimise, rebuild, diagnose, save. *)
Definition validate (E : Emulator) (message : bool) : M W unit :=
  call (CallMeth E.(opt_T) Meth.llhoptimize_full [E.(config); VBool message] []) ;;
  call (CallMeth E.(training) Meth.remake [] []) ;;
  call (CallMeth E.(validation) Meth.remake [] []) ;;
  call (CallMeth E.(post) Meth.remake [] []) ;;
  call (CallMeth E.(post) Meth.mahalanobis_distance [] []) ;;
  call (CallMeth E.(post) Meth.indiv_standard_error [] [("ise", VFloat (2 # 1))]) ;;
  call (CallMeth E.(beliefs) Meth.final_beliefs [E.(this); VBool false] []) ;;
  call (CallMeth E.(post) Meth.final_design_points [E.(this); VBool false] []) ;;
  ret tt.

(** Lines 94 to 100: the body of [if E.tv_conf.check_still_training()]. *)
Definition promote (E : Emulator) : M W unit :=
  print "Preparing for next round of training..." ;;
  call (CallMeth E.(post) Meth.incVinT [] []) ;;
  call (CallMeth E.(tv_conf) Meth.next_Vset [] []) ;;
  call (CallMeth E.(all_data) Meth.choose_new_V [E.(validation)] []) ;;
  call (CallMeth E.(training) Meth.remake [] []) ;;
  call (CallMeth E.(validation) Meth.remake [] []) ;;
  call (CallMeth E.(post) Meth.remake [] []) ;;
  ret tt.

(** Lines 76 to 100: the body of the [while]. *)
Definition round (E : Emulator) (message : bool) : M W unit :=
  validate E message ;;
  still <- call (CallMeth E.(tv_conf) Meth.check_still_training [] []) ;;
  more <- test truth still ;;
  if more then promote E else ret tt.

(** Line 75: the guard of the [while]. *)
Definition guard (E : Emulator) : M W bool :=
  b <- call (CallMeth E.(tv_conf) Meth.doing_training [] []) ;;
  test truth b.

(** Lines 104 to 117: the body of [if E.tv_conf.do_final_build()]. *)
Definition final_build (E : Emulator) (message : bool) : M W unit :=
  print (nl +:+ "***Doing final build***") ;;
  n <- call (GetAttr E.(tv_conf) Attr.noV) ;;
  fold <- test ne_zero_truth n ;;
  (if fold
   then call (CallMeth E.(post) Meth.incVinT [] []) ;; ret tt
   else ret tt) ;;
  call (CallMeth E.(training) Meth.remake [] []) ;;
  call (CallMeth E.(opt_T) Meth.llhoptimize_full [E.(config); VBool message] []) ;;
  call (CallMeth E.(training) Meth.remake [] []) ;;
  call (CallMeth E.(beliefs) Meth.final_beliefs [E.(this); VBool true] []) ;;
  call (CallMeth E.(post) Meth.final_design_points [E.(this); VBool true] []) ;;
  ret tt.

Definition train (E : Emulator) (auto message : bool) (fuel : nat) : M W Val :=
  call (CallMeth E.(tv_conf) Meth.auto_train [VBool auto] []) ;;
  while fuel (guard E) (round E message) ;;
  fb <- call (CallMeth E.(tv_conf) Meth.do_final_build [] []) ;;
  final <- test truth fb ;;
  (if final then final_build E message else ret tt) ;;
  ret VNone.

(** *** [setup], lines 13 to 54 *)

(** A starred argument: the items of [v] become the positional arguments.  Objects
    of the package's classes are taken not to be iterable. *)
Definition star (v : Val) : M W (list Val) :=
  match v with
  | VSeq _ xs => ret xs
  | VStr s => ret (map (fun c => VStr (String c "")) (list_ascii_of_string s))
  | _ => raise TypeError
  end.

(** [(a, b) = v]. *)
Definition unpack2 (v : Val) : M W (Val * Val) :=
  match v with
  | VSeq _ [a; b] => ret (a, b)
  | VSeq _ _ => raise ValueError
  | VStr s =>
      match list_ascii_of_string s with
      | [a; b] => ret (VStr (String a ""), VStr (String b ""))
      | _ => raise ValueError
      end
  | _ => raise TypeError
  end.

Definition setup (config_file : string) (datashuffle scaleinputs : bool)
  : M W Emulator :=
  config <- call (CallFn Fn.Config [VStr config_file] []) ;;
  beliefs_file <- call (GetAttr config Attr.beliefs) ;;
  beliefs <- call (CallFn Fn.Beliefs [beliefs_file] []) ;;
  par <- call (CallFn Fn.Hyperparams [beliefs] []) ;;
  basis <- call (CallFn Fn.Basis [beliefs] []) ;;
  tv <- call (GetAttr config Attr.tv_config) ;;
  tv_args <- star tv ;;
  tv_conf <- call (CallFn Fn.TV_config tv_args []) ;;
  inputs <- call (GetAttr config Attr.inputs) ;;
  outputs <- call (GetAttr config Attr.outputs) ;;
  all_data <- call (CallFn Fn.All_Data
                [inputs; outputs; tv_conf; beliefs; par;
                 VBool datashuffle; VBool scaleinputs] []) ;;
  K <- call (CallFn Fn.build_kernel [beliefs] []) ;;
  call (CallFn Fn.auto_configure_kernel [K; par; all_data] []) ;;
  T <- call (CallMeth all_data Meth.choose_T [] []) ;;
  xy_T <- unpack2 T ;;
  V <- call (CallMeth all_data Meth.choose_V [] []) ;;
  xy_V <- unpack2 V ;;
  training <- call (CallFn Fn.Data [xy_T.1; xy_T.2; basis; par; beliefs; K] []) ;;
  validation <- call (CallFn Fn.Data [xy_V.1; xy_V.2; basis; par; beliefs; K] []) ;;
  post <- call (CallFn Fn.Posterior [validation; training; par; beliefs; K] []) ;;
  opt_T <- call (CallFn Fn.Optimize [training; basis; par; beliefs; config] []) ;;
  E <- call (CallFn Fn.Emulator
          [config; beliefs; par; basis; tv_conf; all_data;
           training; validation; post; opt_T; K] []) ;;
  ret {| this := E; config := config; beliefs := beliefs; par := par;
         basis := basis; tv_conf := tv_conf; all_data := all_data;
         training := training; validation := validation; post := post;
         opt_T := opt_T; K := K |}.

(** *** [plot], lines 123 to 180 *)

(** [l[i]] on a list argument, for a literal index. *)
Definition item {A} (l : list A) (i : nat) : M W A :=
  match l !! i with
  | Some x => ret x
  | None => raise IndexError
  end.

(** The number of elements of a numpy array; a numpy scalar counts 1. *)
Fixpoint np_size (v : Val) : Z :=
  match v with
  | VSeq NdArray xs =>
      (fix total (l : list Val) : Z :=
         match l with
         | [] => 0
         | x :: r => np_size x + total r
         end) xs
  | _ => 1
  end%Z.

(** [inputs[0].size].  Only numpy arrays and their items have a [size];
    the items of a numpy array that are numbers, booleans or strings are
    numpy scalars, of size 1. *)
Definition first_size (inputs : Val) : Outcome Z :=
  match inputs with
  | VSeq k xs =>
      match xs !! 0%nat with
      | None => Err IndexError
      | Some (VSeq NdArray row) => Ok (np_size (VSeq NdArray row))
      | Some (VInt _ | VFloat _ | VBool _ | VStr _) =>
          match k with NdArray => Ok 1%Z | _ => Err AttributeError end
      | Some _ => Err AttributeError
      end
  | VStr s => if String.eqb s "" then Err IndexError else Err AttributeError
  | _ => Err TypeError
  end.

(** [str(n)] for an [int]. *)
Definition str_int (n : Z) : string := NilZero.string_of_int (Z.to_int n).

(** [str(v)].  How floats, containers and the package's objects print is
    left to the environment. *)
Definition str (v : Val) : M W string :=
  match v with
  | VNone => ret "None"
  | VBool true => ret "True"
  | VBool false => ret "False"
  | VInt n => ret (str_int n)
  | VStr s => ret s
  | _ =>
      r <- call (CallMeth v Meth.__str__ [] []) ;;
      match r with
      | VStr s => ret s
      | _ => raise TypeError
      end
  end.

(** Line 170. *)
Definition pn : Z := 30.

(** Lines 145, 146 and 156: [one_d] is set to [True] in the first branch
    and to [False] in the other. *)
Definition is_one_d (dim : Z) (plot_dims : list Z) : bool :=
  (length plot_dims =? 1)%nat && (1 <? dim)%Z.

(** Lines 145 to 167: [xlabel] and [ylabel]. *)
Definition labels (E : Emulator) (dim : Z) (plot_dims : list Z)
    (customLabels : list string) : M W (string * string) :=
  if is_one_d dim plot_dims then
    match customLabels with
    | [] =>
        d0 <- item plot_dims 0 ;;
        out <- call (GetAttr E.(beliefs) Attr.output) ;;
        s <- str out ;;
        ret ("input " +:+ str_int d0, "output " +:+ s)
    | _ =>
        xlabel <- item customLabels 0 ;;
        ylabel <- item customLabels 1 ;;
        ret (xlabel, ylabel)
    end
  else
    match customLabels with
    | [] =>
        d0 <- item plot_dims 0 ;;
        if (dim =? 1)%Z then
          ret ("input " +:+ str_int d0, "output ")
        else
          d1 <- item plot_dims 1 ;;
          ret ("input " +:+ str_int d0, "input " +:+ str_int d1)
    | _ =>
        xlabel <- item customLabels 0 ;;
        ylabel <- item customLabels 1 ;;
        ret (xlabel, ylabel)
    end.

(** Lines 169 to 180: the grid, its regression state, the posterior over
    it and the rendering. *)
Definition predict_on_grid (E : Emulator) (dim : Z) (one_d : bool)
    (xlabel ylabel : string) (plot_dims fixed_dims : list Z)
    (fixed_vals : list Q) (mean_or_var : string) : M W Val :=
  full_xrange <- call (CallFn Fn.make_inputs
                   [VInt dim; VInt pn; VInt pn;
                    VSeq PyList (map VInt plot_dims);
                    VSeq PyList (map VInt fixed_dims);
                    VSeq PyList (map VFloat fixed_vals);
                    VBool one_d] []) ;;
  predict <- call (CallFn Fn.Data
               [full_xrange; VNone; E.(basis); E.(par); E.(beliefs); E.(K)] []) ;;
  post' <- call (CallFn Fn.Posterior
             [predict; E.(training); E.(par); E.(beliefs); E.(K)] []) ;;
  call (CallFn Fn.plotting
          [VInt dim; post'; VInt pn; VInt pn; VBool one_d; VStr mean_or_var]
          [("labels", VSeq PyList [VStr xlabel; VStr ylabel])]) ;;
  ret VNone.

Definition plot (E : Emulator) (plot_dims fixed_dims : list Z)
    (fixed_vals : list Q) (mean_or_var : string) (customLabels : list string)
  : M W Val :=
  inputs <- call (GetAttr E.(training) Attr.inputs) ;;
  dim <- lift (first_size inputs) ;;
  print (nl +:+ "***Generating plot***") ;;
  l <- labels E dim plot_dims customLabels ;;
  let '(xlabel, ylabel) := l in
  predict_on_grid E dim (is_one_d dim plot_dims) xlabel ylabel
    plot_dims fixed_dims fixed_vals mean_or_var.

End Program.

(** Straight-line code: calls made one after the other, results dropped. *)
Fixpoint run_calls {W} (ext : Call -> W -> Reply * W) (cs : list Call) : M W unit :=
  match cs with
  | [] => ret tt
  | c :: rest => call ext c ;; run_calls ext rest
  end.

(** ** Reading traces *)

#[global] Instance Meth_eq_dec : EqDecision Meth.t.
Proof. solve_decision. Defined.

#[global] Instance Fn_eq_dec : EqDecision Fn.t.
Proof. solve_decision. Defined.

#[global] Instance Attr_eq_dec : EqDecision Attr.t.
Proof. solve_decision. Defined.

Definition method_of (a : Action) : option Meth.t :=
  match a with
  | Do (CallMeth _ m _ _) => Some m
  | _ => None
  end.

Definition function_of (a : Action) : option Fn.t :=
  match a with
  | Do (CallFn f _ _) => Some f
  | _ => None
  end.

(** [a] is a call of method [m], on whatever object. *)
Definition calls_method (m : Meth.t) (a : Action) : bool :=
  bool_decide (method_of a = Some m).

(** [a] is a call of the function or constructor [f]. *)
Definition calls_function (f : Fn.t) (a : Action) : bool :=
  bool_decide (function_of a = Some f).

(** The positional arguments of a call; an attribute read has none. *)
Definition args_of (a : Action) : list Val :=
  match a with
  | Do (CallFn _ args _) => args
  | Do (CallMeth _ _ args _) => args
  | _ => []
  end.

(** The two validation diagnostics. *)
Definition is_diagnostic (a : Action) : bool :=
  calls_method Meth.mahalanobis_distance a || calls_method Meth.indiv_standard_error a.

Definition is_diagnostic_call (c : Call) : bool := is_diagnostic (Do c).

(** [a] reads the attribute [x] of some object. *)
Definition reads (x : Attr.t) (a : Action) : bool :=
  match a with
  | Do (GetAttr _ y) => bool_decide (x = y)
  | _ => false
  end.

(** What the calls selected by [sel] returned, as [read] takes it, one
    entry per call that returned. *)
Definition answers {W} (sel : Action -> bool) (read : Val -> bool)
    (tr : list (Event W)) : list bool :=
  omap (fun e =>
          match e with
          | Called c (Returns v) _ => if sel (Do c) then Some (read v) else None
          | _ => None
          end) tr.
Arguments answers {W} sel read tr : simpl never.

(** What [check_still_training] answered, as the [if] of line 93 reads it. *)
Definition check_replies {W} (tr : list (Event W)) : list bool :=
  answers (calls_method Meth.check_still_training) truthy tr.

(** What [do_final_build] answered, as the [if] of line 103 reads it. *)
Definition final_replies {W} (tr : list (Event W)) : list bool :=
  answers (calls_method Meth.do_final_build) truthy tr.

(** Whether [noV != 0], at each read of [noV] (line 107). *)
Definition noV_replies {W} (tr : list (Event W)) : list bool :=
  answers (reads Attr.noV) ne_zero tr.

(** Whether the run entered the final build, and if so whether it found
    [noV != 0]. *)
Definition final_choice {W} (tr : list (Event W)) : option bool :=
  match final_replies tr with
  | true :: _ => Some (hd false (noV_replies tr))
  | _ => None
  end.

(** The state before and after each call of a trace that starts in [w]. *)
Fixpoint steps {W} (w : W) (tr : list (Event W)) : list (W * Call * W) :=
  match tr with
  | [] => []
  | Called c _ w' :: r => (w, c, w') :: steps w' r
  | Printed _ :: r => steps w r
  end.

(** A run follows the list [L] of actions: it performed an initial part
    of [L], and all of [L] when it returned. *)
Definition follows {W A} (x : Outcome A * W * list (Event W)) (L : list Action) : Prop :=
  actions (trace x) `prefix_of` L /\
  (forall a, outcome x = Ok a -> actions (trace x) = L).

(** Every action of [L] that [sel] selects comes right after the actions
    [before]. *)
Definition preceded (sel : Action -> bool) (before L : list Action) : Prop :=
  forall pre a post,
    L = pre ++ a :: post -> sel a = true -> exists pre0, pre = pre0 ++ before.

(** What the calls of the function or constructor [f] returned. *)
Definition returned {W} (f : Fn.t) (tr : list (Event W)) : list Val :=
  omap (fun e =>
          match e with
          | Called (CallFn g _ _) (Returns v) _ => if decide (f = g) then Some v else None
          | _ => None
          end) tr.
Arguments returned {W} f tr : simpl never.

(** ** What [plot] does *)

(** The actions of the label construction: the read of [beliefs.output]
    and its conversion to a string. *)
Definition label_action (a : Action) : bool :=
  reads Attr.output a || calls_method Meth.__str__ a.

(** The actions [plot] is made of: attribute reads, messages, [str] of a
    value, and the functions and constructors [make_inputs], [Data],
    [Posterior] and [plotting].  No other method of an object is called. *)
Definition plot_may (a : Action) : bool :=
  match a with
  | Say _ => true
  | Do (GetAttr _ _) => true
  | Do (CallMeth _ m _ _) => bool_decide (m = Meth.__str__)
  | Do (CallFn f _ _) =>
      bool_decide (f = Fn.make_inputs) || bool_decide (f = Fn.Data) ||
      bool_decide (f = Fn.Posterior) || bool_decide (f = Fn.plotting)
  end.

Section PlotOrder.
Variable E : Emulator.
Variables (plot_dims fixed_dims : list Z) (fixed_vals : list Q) (mean_or_var : string).

Definition read_inputs : Call := GetAttr E.(training) Attr.inputs.

Definition grid_call (dim : Z) (one_d : bool) : Call :=
  CallFn Fn.make_inputs
    [VInt dim; VInt 30; VInt 30;
     VSeq PyList (map VInt plot_dims);
     VSeq PyList (map VInt fixed_dims);
     VSeq PyList (map VFloat fixed_vals);
     VBool one_d] [].

Definition predict_call (grid : Val) : Call :=
  CallFn Fn.Data [grid; VNone; E.(basis); E.(par); E.(beliefs); E.(K)] [].

Definition posterior_call (predict : Val) : Call :=
  CallFn Fn.Posterior [predict; E.(training); E.(par); E.(beliefs); E.(K)] [].

Definition plotting_call (dim : Z) (post' : Val) (one_d : bool) (xlabel ylabel : string)
  : Call :=
  CallFn Fn.plotting
    [VInt dim; post'; VInt 30; VInt 30; VBool one_d; VStr mean_or_var]
    [("labels", VSeq PyList [VStr xlabel; VStr ylabel])].

(** Lines 172 to 178, for a grid [grid], its state [predict] and the
    posterior [post'] over it. *)
Definition grid_actions (dim : Z) (one_d : bool) (xlabel ylabel : string)
    (grid predict post' : Val) : list Action :=
  [Do (grid_call dim one_d); Do (predict_call grid);
   Do (posterior_call predict); Do (plotting_call dim post' one_d xlabel ylabel)].

(** A whole run of [plot]; [lab] are the actions of the label construction. *)
Definition plot_actions (lab : list Action) (dim : Z) (one_d : bool)
    (xlabel ylabel : string) (grid predict post' : Val) : list Action :=
  Do read_inputs :: Say (nl +:+ "***Generating plot***") ::
  lab ++ grid_actions dim one_d xlabel ylabel grid predict post'.
End PlotOrder.

(** ** What [setup] shares *)

(** Every call of [f] among [l] has [v] among its positional arguments. *)
Definition handed (f : Fn.t) (v : Val) (l : list Action) : Prop :=
  Forall (fun a => function_of a = Some f -> In v (args_of a)) l.

(** The hyperparameters and the kernel of the returned emulator are each
    made once and handed to each of [Data], [Posterior], [Optimize] and
    [Emulator]. *)
Definition shares_par_and_K {W} (x : Outcome Emulator * W * list (Event W)) : Prop :=
  forall E, outcome x = Ok E ->
    returned Fn.Hyperparams (trace x) = [E.(par)] /\
    returned Fn.build_kernel (trace x) = [E.(K)] /\
    forall f, In f [Fn.Data; Fn.Posterior; Fn.Optimize; Fn.Emulator] ->
      handed f E.(par) (actions (trace x)) /\ handed f E.(K) (actions (trace x)).

(** ** The states a run goes through *)

(** The state a trace that starts in [w] ends in. *)
Fixpoint last_state {W} (w : W) (tr : list (Event W)) : W :=
  match tr with
  | [] => w
  | Called _ _ w' :: r => last_state w' r
  | Printed _ :: r => last_state w r
  end.

(** The run [x], started in [w], changed the state only through the calls
    of its trace, each answered by [ext]. *)
Definition chained {W A} (ext : Call -> W -> Reply * W) (w : W)
    (x : Outcome A * W * list (Event W)) : Prop :=
  Forall (fun s : W * Call * W => s.2 = (ext s.1.2 s.1.1).2) (steps w (trace x)) /\
  final x = last_state w (trace x).

(** A run started in [w] that performs only actions [P] allows, does not
    run out of fuel, and changes the state only through its calls. *)
Definition tame {W A} (ext : Call -> W -> Reply * W) (P : Action -> bool) (w : W)
    (x : Outcome A * W * list (Event W)) : Prop :=
  Forall (fun a => P a = true) (actions (trace x)) /\
  outcome x <> OutOfFuel /\
  chained ext w x.

(** ** Runs that differ only in what the diagnostics return *)

(** The exception a reply carries, if any. *)
Definition raised (r : Reply) : option Exn :=
  match r with
  | Returns _ => None
  | Raises e => Some e
  end.

(** Two replies to the call [c] agree: they are the same, or [c] is a
    diagnostic and both return, whatever the values. *)
Definition same_reply (c : Call) (r1 r2 : Reply) : Prop :=
  if is_diagnostic_call c then raised r1 = raised r2 else r1 = r2.

(** Two environments that differ at most in the values the two
    diagnostics return. *)
Definition same_but_diagnostics {W} (ext1 ext2 : Call -> W -> Reply * W) : Prop :=
  forall c w,
    (ext1 c w).2 = (ext2 c w).2 /\ same_reply c (ext1 c w).1 (ext2 c w).1.

Definition same_event {W} (e1 e2 : Event W) : Prop :=
  match e1, e2 with
  | Called c1 r1 w1, Called c2 r2 w2 => c1 = c2 /\ w1 = w2 /\ same_reply c1 r1 r2
  | Printed s1, Printed s2 => s1 = s2
  | _, _ => False
  end.

Definition same_outcome {A} (R : A -> A -> Prop) (o1 o2 : Outcome A) : Prop :=
  match o1, o2 with
  | Ok a, Ok b => R a b
  | Err e1, Err e2 => e1 = e2
  | OutOfFuel, OutOfFuel => True
  | _, _ => False
  end.

(** Two runs that went the same way, up to the values of the diagnostics. *)
Definition same_run {W A} (R : A -> A -> Prop)
    (x1 x2 : Outcome A * W * list (Event W)) : Prop :=
  final x1 = final x2 /\
  Forall2 same_event (trace x1) (trace x2) /\
  same_outcome R (outcome x1) (outcome x2).

Definition any {A} : A -> A -> Prop := fun _ _ => True.

(** ** The order of calls the specification gives for [train] *)

Section Order.
Variable E : Emulator.
Variable message : bool.

Definition optimise : Call :=
  CallMeth E.(opt_T) Meth.llhoptimize_full [E.(config); VBool message] [].
Definition remake_training : Call := CallMeth E.(training) Meth.remake [] [].
Definition remake_validation : Call := CallMeth E.(validation) Meth.remake [] [].
Definition remake_post : Call := CallMeth E.(post) Meth.remake [] [].
Definition mahalanobis : Call := CallMeth E.(post) Meth.mahalanobis_distance [] [].
Definition standard_error : Call :=
  CallMeth E.(post) Meth.indiv_standard_error [] [("ise", VFloat (2 # 1))].
Definition save_beliefs (is_final_build : bool) : Call :=
  CallMeth E.(beliefs) Meth.final_beliefs [E.(this); VBool is_final_build] [].
Definition save_design_points (is_final_build : bool) : Call :=
  CallMeth E.(post) Meth.final_design_points [E.(this); VBool is_final_build] [].
Definition fold_V_into_T : Call := CallMeth E.(post) Meth.incVinT [] [].
Definition advance : Call := CallMeth E.(tv_conf) Meth.next_Vset [] [].
Definition new_V : Call := CallMeth E.(all_data) Meth.choose_new_V [E.(validation)] [].
Definition doing : Call := CallMeth E.(tv_conf) Meth.doing_training [] [].
Definition still : Call := CallMeth E.(tv_conf) Meth.check_still_training [] [].
Definition want_final : Call := CallMeth E.(tv_conf) Meth.do_final_build [] [].
Definition read_noV : Call := GetAttr E.(tv_conf) Attr.noV.

(** Optimise, then the three rebuilds. *)
Definition rebuilt : list Action :=
  [Do optimise; Do remake_training; Do remake_validation; Do remake_post].

(** Steps 1 to 4 of a round. *)
Definition validate_actions : list Action :=
  rebuilt ++
  [Do mahalanobis; Do standard_error;
   Do (save_beliefs false); Do (save_design_points false)].

(** Step 5 of a round. *)
Definition promote_actions : list Action :=
  [Say "Preparing for next round of training...";
   Do fold_V_into_T; Do advance; Do new_V;
   Do remake_training; Do remake_validation; Do remake_post].

(** One round; [more] is the answer of [check_still_training]. *)
Definition round_actions (more : bool) : list Action :=
  validate_actions ++ Do still :: (if more then promote_actions else []).

(** The rounds of the loop, each behind its guard. *)
Definition loop_actions (answers : list bool) : list Action :=
  flat_map (fun more => Do doing :: round_actions more) answers.

(** The final build; [fold] tells whether [noV != 0]. *)
Definition final_actions (fold : bool) : list Action :=
  Say (nl +:+ "***Doing final build***") :: Do read_noV ::
  (if fold then [Do fold_V_into_T] else []) ++
  [Do remake_training; Do optimise; Do remake_training;
   Do (save_beliefs true); Do (save_design_points true)].

(** A whole run: [fin] is [None] when no final build is done. *)
Definition train_actions (auto : bool) (answers : list bool) (fin : option bool)
  : list Action :=
  Do (CallMeth E.(tv_conf) Meth.auto_train [VBool auto] []) ::
  loop_actions answers ++
  Do doing :: Do want_final ::
  match fin with
  | Some fold => final_actions fold
  | None => []
  end.
End Order.

(** ** The collaborators, as the specification describes them *)

Module Spec.

(** Modelled from the spec: the classes [TV_config], [All_Data], [Data]
    and [Posterior] of [_emulatorclasses] are not part of this file.
    The states are those of section 4.5 (the partition state machine). *)
Inductive PState :=
| TrainingOnly
| Validating (k : nat)
| Exhausted
| FinalBuild.

(** Modelled from the spec: the points of the dataset the absent class
    [All_Data] holds, an input vector and its output each (section 3). *)
Definition Point : Type := list Q * Q.
Definition Block : Type := list Point.

(** Modelled from the spec: the Partition Plan and the Dataset Partition
    of sections 2 and 3, which the absent classes hold: the number of
    validation blocks, the current state, whether automatic promotion is
    enabled, the finite ordered sequence of validation blocks, and the
    blocks the training and the validation Regression State own.
    [acceptable k] says whether the diagnostics of block [k] allow its
    promotion, [final_requested] whether the final build is asked for;
    [next_id] numbers the objects the constructors make. *)
Record World := {
  next_id : positive;
  noV : nat;
  state : PState;
  auto : bool;
  acceptable : nat -> bool;
  final_requested : bool;
  blocks : list Block;
  T : Block;
  V : Block
}.

Definition set_state (s : PState) (w : World) : World :=
  {| next_id := w.(next_id); noV := w.(noV); state := s; auto := w.(auto);
     acceptable := w.(acceptable); final_requested := w.(final_requested);
     blocks := w.(blocks); T := w.(T); V := w.(V) |}.

Definition set_auto (b : bool) (w : World) : World :=
  {| next_id := w.(next_id); noV := w.(noV); state := w.(state); auto := b;
     acceptable := w.(acceptable); final_requested := w.(final_requested);
     blocks := w.(blocks); T := w.(T); V := w.(V) |}.

Definition set_T (b : Block) (w : World) : World :=
  {| next_id := w.(next_id); noV := w.(noV); state := w.(state); auto := w.(auto);
     acceptable := w.(acceptable); final_requested := w.(final_requested);
     blocks := w.(blocks); T := b; V := w.(V) |}.

Definition set_V (b : Block) (w : World) : World :=
  {| next_id := w.(next_id); noV := w.(noV); state := w.(state); auto := w.(auto);
     acceptable := w.(acceptable); final_requested := w.(final_requested);
     blocks := w.(blocks); T := w.(T); V := b |}.

Definition alloc (w : World) : World :=
  {| next_id := Pos.succ w.(next_id); noV := w.(noV); state := w.(state);
     auto := w.(auto); acceptable := w.(acceptable);
     final_requested := w.(final_requested);
     blocks := w.(blocks); T := w.(T); V := w.(V) |}.

(** Modelled from the spec: the start state of the plan, which the absent
    constructor [TV_config] sets (section 4.5, Start). *)
Definition start (n : nat) : PState :=
  if (0 <? n)%nat then Validating 0 else TrainingOnly.

Definition inputs_array (b : Block) : Val :=
  VSeq NdArray (map (fun p : Point => VSeq NdArray (map VFloat p.1)) b).

Definition outputs_array (b : Block) : Val :=
  VSeq NdArray (map (fun p : Point => VFloat p.2) b).

(** Modelled from the spec: the failure of the absent [choose_new_V] when
    no validation block remains (section 7, [PartitionExhaustedMisuse]). *)
Definition misuse : Exn := Raised (VStr "PartitionExhaustedMisuse").

(** Modelled from the spec: how the absent classes answer.

    - a constructor or module function makes a new object; [TV_config]
      puts the plan in its start state;
    - [doing_training] is "validation sets remain": the plan is in a
      [Validating] state;
    - [check_still_training] is "more validation blocks remain" (4.6,
      step 5) under the conditions of the transition
      [Validating(k) -> Validating(k+1)] of 4.5.  Section 4.5 has no
      transition for a round that ends without promotion; [closes] tells
      what the question does to the plan when the answer is no: nothing,
      which is the machine of 4.5 as it is written, or the plan becomes
      [Exhausted], which is an assumption about the absent class and not
      in the specification;
    - [next_Vset] is that transition, [Exhausted] after the last block;
    - [incVinT] folds the block of the validation state into the block
      of the training state;
    - [choose_new_V] hands the current block to the validation state and
      fails loudly when there is none (section 7);
    - [do_final_build] is the explicit request of 4.5;
    - optimisation, rebuilds, diagnostics and persistence do not touch
      the partition (section 3: it is mutated only by advancing or
      folding); the diagnostics answer [report]. *)
Definition plan_call (closes : bool) (report : Val) (c : Call) (w : World)
  : Reply * World :=
  match c with
  | CallFn f _ _ =>
      (Returns (VObj w.(next_id)),
       alloc (match f with
              | Fn.TV_config => set_state (start w.(noV)) w
              | _ => w
              end))
  | GetAttr _ a =>
      (Returns (match a with
                | Attr.beliefs => VStr "beliefs"
                | Attr.tv_config =>
                    VSeq PyTuple [VInt (Z.of_nat w.(noV)); VInt 0;
                                  VInt (Z.of_nat (length w.(V)))]
                | Attr.inputs => inputs_array w.(T)
                | Attr.outputs => outputs_array w.(T)
                | Attr.noV => VInt (Z.of_nat w.(noV))
                | Attr.output => VInt 0
                end), w)
  | CallMeth _ m args _ =>
      match m with
      | Meth.auto_train =>
          match args with
          | [v] => (Returns VNone, set_auto (truthy v) w)
          | _ => (Raises TypeError, w)
          end
      | Meth.doing_training =>
          (Returns (VBool match w.(state) with Validating _ => true | _ => false end), w)
      | Meth.check_still_training =>
          match w.(state) with
          | Validating k =>
              if (S k <? w.(noV))%nat && w.(auto) && w.(acceptable) k
              then (Returns (VBool true), w)
              else (Returns (VBool false),
                    if closes then set_state Exhausted w else w)
          | _ => (Returns (VBool false), w)
          end
      | Meth.next_Vset =>
          match w.(state) with
          | Validating k =>
              (Returns VNone,
               set_state (if (S k <? w.(noV))%nat then Validating (S k) else Exhausted) w)
          | _ => (Returns VNone, w)
          end
      | Meth.choose_new_V =>
          match w.(state) with
          | Validating k =>
              match w.(blocks) !! k with
              | Some b => (Returns VNone, set_V b w)
              | None => (Raises misuse, w)
              end
          | _ => (Raises misuse, w)
          end
      | Meth.incVinT => (Returns VNone, set_T (w.(T) ++ w.(V)) w)
      | Meth.do_final_build =>
          if w.(final_requested)
          then (Returns (VBool true), set_state FinalBuild w)
          else (Returns (VBool false), w)
      | Meth.choose_T =>
          (Returns (VSeq PyTuple [inputs_array w.(T); outputs_array w.(T)]), w)
      | Meth.choose_V =>
          (Returns (VSeq PyTuple [inputs_array w.(V); outputs_array w.(V)]), w)
      | Meth.mahalanobis_distance | Meth.indiv_standard_error => (Returns report, w)
      | Meth.__str__ => (Returns (VStr "object"), w)
      | Meth.remake | Meth.llhoptimize_full
      | Meth.final_beliefs | Meth.final_design_points => (Returns VNone, w)
      end
  end.

(** The collaborators of the specification: the partition changes state
    by the transitions of section 4.5 and by nothing else. *)
Definition ext : Val -> Call -> World -> Reply * World := plan_call false.

(** The same collaborators under the assumption that a "no" to
    [check_still_training] closes the plan.  Not in the specification:
    it is used where a run of [train] that returns is needed, and to show
    what termination takes. *)
Definition closing : Val -> Call -> World -> Reply * World := plan_call true.

(** The blocks folded into the training block along a trace that starts in
    [w]: the validation block at each call of [incVinT]. *)
Definition folded (w : World) (tr : list (Event World)) : list Block :=
  omap (fun s : World * Call * World =>
          if calls_method Meth.incVinT (Do s.1.2) then Some (V s.1.1) else None)
       (steps w tr).



(** A dataset of three validation blocks over two inputs, as [setup]
    leaves it: the plan at its start, the first block under validation. *)
Definition p (a b y : Z) : Point := ([inject_Z a; inject_Z b], inject_Z y).

Definition sample (requested : bool) : World :=
  {| next_id := 14; noV := 3; state := Validating 0; auto := true;
     acceptable := fun _ => true; final_requested := requested;
     blocks := [[p 1 1 2; p 1 2 3]; [p 2 1 3]; [p 2 2 4; p 3 3 6]];
     T := [p 0 0 0; p 0 1 1; p 1 0 1];
     V := [p 1 1 2; p 1 2 3] |}.

(** The same dataset before [setup]: no object made yet. *)
Definition blank (requested : bool) : World :=
  {| next_id := 1; noV := 3; state := TrainingOnly; auto := true;
     acceptable := fun _ => true; final_requested := requested;
     blocks := [[p 1 1 2; p 1 2 3]; [p 2 1 3]; [p 2 2 4; p 3 3 6]];
     T := [p 0 0 0; p 0 1 1; p 1 0 1];
     V := [p 1 1 2; p 1 2 3] |}.

(** The emulator [setup] returns in a world whose objects are numbered
    from 1. *)
Definition emu : Emulator :=
  {| config := VObj 1; beliefs := VObj 2; par := VObj 3; basis := VObj 4;
     tv_conf := VObj 5; all_data := VObj 6; K := VObj 7;
     training := VObj 9; validation := VObj 10; post := VObj 11;
     opt_T := VObj 12; this := VObj 13 |}.

(** What [plot] must leave alone: the plan and the blocks. *)
Definition partition (w : World)
  : nat * PState * bool * bool * list Block * Block * Block :=
  (noV w, state w, auto w, final_requested w, blocks w, T w, V w).

(** [train(E)] on that dataset, with the final build asked for or not,
    under the assumption that makes it return. *)
Definition sample_run (requested : bool) : Outcome Val * World * list (Event World) :=
  train (closing VNone) emu true false 10 (sample requested).

End Spec.

(** ** How runs end

    The call of the event returned; a message counts as returned. *)
Definition event_returned {W} (e : Event W) : Prop :=
  match e with
  | Called _ (Raises _) _ => False
  | _ => True
  end.

(** How a run may end.  When it fails with [e], either its last event is
    a call that raised [e], every earlier call returned and the state is
    the one that call left, or [e] is one of the exceptions [own] the
    function raises itself and every call returned.  When it does not fail,
    every call returned. *)
Definition stops {W A} (own : Exn -> Prop) (x : Outcome A * W * list (Event W)) : Prop :=
  match outcome x with
  | Err e =>
      (exists tr c w',
         trace x = tr ++ [Called c (Raises e) w'] /\
         Forall event_returned tr /\ final x = w') \/
      (own e /\ Forall event_returned (trace x))
  | _ => Forall event_returned (trace x)
  end.

(** How a run that raises only over the answer of a call may end.  When it
    fails with [e], its last event is a call, every earlier call returned
    and the state is the one that call left; either the call raised [e], or
    it returned a value [v] and [cause c v e] tells why [e] was raised over
    it.  When it does not fail, every call returned. *)
Definition fails_at {W A} (cause : Call -> Val -> Exn -> Prop)
    (x : Outcome A * W * list (Event W)) : Prop :=
  match outcome x with
  | Err e =>
      exists tr c r w',
        trace x = tr ++ [Called c r w'] /\
        Forall event_returned tr /\ final x = w' /\
        (r = Raises e \/ exists v, r = Returns v /\ cause c v e)
  | _ => Forall event_returned (trace x)
  end.

(** The exception [train] raises itself: [ValueError], when the answer to
    one of its three questions, or [noV], is a numpy array of several items,
    so that the test of line 75, 93, 103 or 107 has no truth value. *)
Definition train_raises (E : Emulator) (c : Call) (v : Val) (e : Exn) : Prop :=
  e = ValueError /\
  ((In c [doing E; still E; want_final E] /\ truth v = None) \/
   (c = read_noV E /\ ne_zero_truth v = None)).


(** An environment that answers [v] to every call and keeps no state. *)
Definition always (v : Val) : Call -> unit -> Reply * unit :=
  fun _ w => (Returns v, w).

(** An environment that answers [True] to every call but
    [check_still_training], to which it answers a numpy array of two items. *)
Definition undecided : Call -> unit -> Reply * unit :=
  fun c w =>
    (Returns (if calls_method Meth.check_still_training (Do c)
              then VSeq NdArray [VInt 1; VInt 0]
              else VBool true), w).
(** The exceptions [plot] raises itself. *)
Definition plot_raises (e : Exn) : Prop :=
  e = IndexError \/ e = TypeError \/ e = AttributeError.

(** ** What [train] calls, and how often *)

(** How many actions of [l] the test [sel] selects. *)
Definition count_of (sel : Action -> bool) (l : list Action) : nat :=
  length (List.filter sel l).

(** The components of [E] whose methods [train] calls. *)
Definition train_receivers (E : Emulator) : list Val :=
  [E.(tv_conf); E.(opt_T); E.(training); E.(validation); E.(post);
   E.(beliefs); E.(all_data)].

(** What [train] does to its emulator: it prints, reads [tv_conf.noV] and
    calls methods of the seven components above. *)
Definition train_may (E : Emulator) (a : Action) : Prop :=
  match a with
  | Say _ => True
  | Do (GetAttr o x) => o = E.(tv_conf) /\ x = Attr.noV
  | Do (CallMeth self _ _ _) => In self (train_receivers E)
  | Do (CallFn _ _ _) => False
  end.

(** ** What [setup] wires together *)

(** The items Python iterates over in a starred argument and in the
    unpacking of a pair: those of a sequence, the characters of a string;
    [None] when the value is not iterable. *)
Definition items_of (v : Val) : option (list Val) :=
  match v with
  | VSeq _ xs => Some xs
  | VStr s => Some (map (fun c => VStr (String c "")) (list_ascii_of_string s))
  | _ => None
  end.



Section SetupOrder.
Variables (config_file : string) (datashuffle scaleinputs : bool).

End SetupOrder.

(** * Proofs *)

(** ** Runs of the monad *)

Ltac crunch := cbn [outcome final trace fst snd].

Section Runs.
Context {W : Type}.
Variable ext : Call -> W -> Reply * W.

Lemma bind_run {A B} (m : M W A) (k : A -> M W B) (w : W) :
  bind m k w =
  match outcome (m w) with
  | Ok a =>
      let y := k a (final (m w)) in
      (outcome y, final y, trace (m w) ++ trace y)
  | Err e => (Err e, final (m w), trace (m w))
  | OutOfFuel => (OutOfFuel, final (m w), trace (m w))
  end.
Proof.
  unfold bind, outcome, final, trace.
  destruct (m w) as [[[a|e|] w1] t1]; cbn; try reflexivity.
  destruct (k a w1) as [[r w2] t2]; reflexivity.
Qed.

Lemma call_run (c : Call) (w : W) :
  call ext c w =
  (match (ext c w).1 with Returns v => Ok v | Raises e => Err e end,
   (ext c w).2,
   [Called c (ext c w).1 (ext c w).2]).
Proof.
  unfold call. destruct (ext c w) as [[v|e] w']; reflexivity.
Qed.

Lemma call_actions (c : Call) (w : W) :
  actions (trace (call ext c w)) = [Do c].
Proof. rewrite call_run. reflexivity. Qed.

Lemma call_not_out_of_fuel (c : Call) (w : W) :
  outcome (call ext c w) <> OutOfFuel.
Proof.
  rewrite call_run. cbn.
  destruct (ext c w).1; discriminate.
Qed.

Lemma print_run (s : string) (w : W) : print s w = (Ok tt, w, [Printed s]).
Proof. reflexivity. Qed.

Lemma ret_run {A} (a : A) (w : W) : ret a w = (Ok a, w, []).
Proof. reflexivity. Qed.

Lemma test_run (t : Val -> option bool) (v : Val) (w : W) :
  test t v w =
  (match t v with Some b => Ok b | None => Err ValueError end, w, []).
Proof. unfold test. destruct (t v); reflexivity. Qed.

Lemma test_bind {A} (t : Val -> option bool) (v : Val) (k : bool -> M W A) (w : W) :
  bind (test t v) k w =
  match t v with
  | Some b => k b w
  | None => (Err ValueError, w, [])
  end.
Proof.
  unfold bind, test. destruct (t v) as [b|]; [|reflexivity].
  cbn. destruct (k b w) as [[r w2] t2]. reflexivity.
Qed.

(** What a test that came out [b] read, and what one that raised read. *)
Lemma truth_cases (v : Val) :
  truth v = Some (truthy v) \/ (truth v = None /\ truthy v = false).
Proof. unfold truthy. destruct (truth v); auto. Qed.

Lemma ne_zero_cases (v : Val) :
  ne_zero_truth v = Some (ne_zero v) \/ (ne_zero_truth v = None /\ ne_zero v = false).
Proof. unfold ne_zero. destruct (ne_zero_truth v); auto. Qed.

Lemma actions_cons (e : Event W) (t : list (Event W)) :
  actions (e :: t) = action_of e :: actions t.
Proof. reflexivity. Qed.

Lemma actions_app (t1 t2 : list (Event W)) :
  actions (t1 ++ t2) = actions t1 ++ actions t2.
Proof. apply map_app. Qed.

Lemma answers_app sel read (t1 t2 : list (Event W)) :
  answers sel read (t1 ++ t2) = answers sel read t1 ++ answers sel read t2.
Proof. apply omap_app. Qed.

(** A trace without a selected call holds no answer. *)
Lemma answers_none sel read (tr : list (Event W)) :
  Forall (fun a => sel a = false) (actions tr) ->
  answers sel read tr = [].
Proof.
  induction tr as [|e tr IH]; intros H; [reflexivity|].
  inversion H as [|a l Ha Hl]; subst.
  unfold answers in *. cbn.
  rewrite (IH Hl).
  destruct e as [c [v|x] w'|s]; try reflexivity.
  cbn in Ha. rewrite Ha. reflexivity.
Qed.

Lemma Forall_prefix_of {A} (P : A -> Prop) (l1 l2 : list A) :
  l1 `prefix_of` l2 -> Forall P l2 -> Forall P l1.
Proof.
  intros [k ->] H. apply Forall_app in H. tauto.
Qed.

(** *** Straight-line code *)

Lemma run_calls_follows (cs : list Call) (w : W) :
  follows (run_calls ext cs w) (map Do cs).
Proof.
  revert w. induction cs as [|c cs IH]; intros w.
  - split; [apply prefix_nil|reflexivity].
  - cbn [run_calls]. rewrite bind_run, call_run.
    destruct (ext c w) as [[v|e] w'] eqn:Hc; cbn.
    + destruct (IH w') as [Hp Hf].
      split; unfold actions in *; cbn.
      * apply prefix_cons, Hp.
      * intros a Ha. f_equal. eapply Hf, Ha.
    + split; [apply prefix_cons, prefix_nil|].
      intros a Ha. discriminate Ha.
Qed.

Lemma run_calls_not_out_of_fuel (cs : list Call) (w : W) :
  outcome (run_calls ext cs w) <> OutOfFuel.
Proof.
  revert w. induction cs as [|c cs IH]; intros w; [discriminate|].
  cbn [run_calls]. rewrite bind_run, call_run.
  destruct (ext c w) as [[v|e] w']; cbn.
  - apply IH.
  - discriminate.
Qed.

End Runs.

Ltac norm_actions :=
  repeat (rewrite actions_app || rewrite actions_cons);
  change (actions (@nil (Event _))) with (@nil Action);
  cbn [action_of app].

(** ** The shape of a run of [train] *)

Section Shape.
Context {W : Type}.
Variable ext : Call -> W -> Reply * W.

Lemma follows_ret {A} (a : A) (w : W) : follows (ret a w) [].
Proof. split; [apply prefix_nil|reflexivity]. Qed.

Lemma follows_print (s : string) (w : W) : follows (print s w) [Say s].
Proof. split; reflexivity. Qed.

Lemma follows_call (c : Call) (w : W) : follows (call ext c w) [Do c].
Proof. split; [rewrite call_actions; reflexivity|intros; apply call_actions]. Qed.

Lemma follows_bind {A B} (m : M W A) (k : A -> M W B) (w : W) (L1 L2 : list Action) :
  follows (m w) L1 ->
  (forall a, outcome (m w) = Ok a -> follows (k a (final (m w))) L2) ->
  follows (bind m k w) (L1 ++ L2).
Proof.
  intros [Hp Hf] Hk. rewrite bind_run.
  destruct (outcome (m w)) as [a|e|] eqn:Hm.
  - destruct (Hk a eq_refl) as [Hp2 Hf2].
    split; crunch; rewrite actions_app, (Hf a eq_refl).
    + apply prefix_app, Hp2.
    + intros b Hb. f_equal. apply (Hf2 b Hb).
  - split; [apply prefix_app_r, Hp|discriminate].
  - split; [apply prefix_app_r, Hp|discriminate].
Qed.

(** A run that follows a list without selected calls holds no answer. *)
Lemma quiet {A} sel read (x : Outcome A * W * list (Event W)) (L : list Action) :
  follows x L ->
  Forall (fun a => sel a = false) L ->
  answers sel read (trace x) = [].
Proof.
  intros [Hp _] HL. apply answers_none.
  eapply Forall_prefix_of; eassumption.
Qed.

Variable E : Emulator.
Variable message : bool.

Lemma validate_follows (w : W) :
  follows (validate ext E message w) (validate_actions E message).
Proof. apply (run_calls_follows ext [_; _; _; _; _; _; _; _]). Qed.

Lemma validate_not_out_of_fuel (w : W) :
  outcome (validate ext E message w) <> OutOfFuel.
Proof. apply (run_calls_not_out_of_fuel ext [_; _; _; _; _; _; _; _]). Qed.

Lemma promote_follows (w : W) :
  follows (promote ext E w) (promote_actions E).
Proof.
  apply (follows_bind _ _ _ [_]); [apply follows_print|].
  intros _ _. apply (run_calls_follows ext [_; _; _; _; _; _]).
Qed.

Lemma promote_not_out_of_fuel (w : W) :
  outcome (promote ext E w) <> OutOfFuel.
Proof.
  unfold promote. rewrite bind_run, print_run. crunch.
  apply (run_calls_not_out_of_fuel ext [_; _; _; _; _; _]).
Qed.

Lemma round_run (w : W) :
  let x := round ext E message w in
  exists (more : bool) (rest : list bool),
    check_replies (trace x) ++ rest = [more] /\
    follows x (round_actions E message more) /\
    (forall a, outcome x = Ok a -> rest = []) /\
    outcome x <> OutOfFuel.
Proof.
  cbn zeta. unfold round. rewrite bind_run.
  pose proof (validate_follows w) as Hv.
  pose proof (quiet (calls_method Meth.check_still_training) truthy _ _ Hv
                ltac:(repeat constructor)) as Hn.
  pose proof (validate_not_out_of_fuel w) as Hfuel.
  destruct (outcome (validate ext E message w)) as [[]|e|] eqn:Ho;
    [| |destruct (Hfuel eq_refl)].
  2:{ exists false, [false]. crunch. unfold check_replies. rewrite Hn.
      split; [reflexivity|]. split; [split|split]; crunch; try discriminate.
      apply prefix_app_r, Hv. }
  destruct Hv as [_ Hv]. specialize (Hv _ Ho).
  set (w1 := final (validate ext E message w)).
  rewrite bind_run, call_run.
  unfold check_replies.
  destruct (ext _ w1) as [[v|e] w2] eqn:Hs; crunch.
  - exists (truthy v), [].
    rewrite !test_bind, !answers_app, Hn.
    change (answers _ truthy [Called _ (Returns v) w2]) with [truthy v].
    destruct (truth_cases v) as [Ht|[Ht Hv']]; rewrite Ht;
      [destruct (truthy v) eqn:Hv'|rewrite Hv']; crunch.
    + pose proof (promote_follows w2) as Hp.
      rewrite (quiet (calls_method Meth.check_still_training) truthy _ _ Hp
                 ltac:(repeat constructor)).
      destruct Hp as [Hp Hf].
      split; [reflexivity|]. split; [split|split]; crunch.
      * rewrite !actions_app, Hv.
        apply prefix_app, (prefix_cons (Do (still E))), Hp.
      * intros a Ha. rewrite !actions_app, Hv, (Hf a Ha). reflexivity.
      * reflexivity.
      * apply promote_not_out_of_fuel.
    + split; [reflexivity|]. split; [split|split]; crunch; try discriminate.
      * rewrite !actions_app, Hv. reflexivity.
      * intros _ _. rewrite !actions_app, Hv. reflexivity.
      * reflexivity.
    + split; [reflexivity|]. split; [split|split]; crunch; try discriminate.
      rewrite !actions_app, Hv. reflexivity.
  - exists false, [false].
    rewrite !answers_app, Hn.
    split; [reflexivity|]. split; [split|split]; crunch; try discriminate.
    rewrite !actions_app, Hv. reflexivity.
Qed.

Lemma guard_run (w : W) :
  guard ext E w =
  (match (ext (doing E) w).1 with
   | Returns v => match truth v with Some b => Ok b | None => Err ValueError end
   | Raises e => Err e
   end,
   (ext (doing E) w).2,
   [Called (doing E) (ext (doing E) w).1 (ext (doing E) w).2]).
Proof.
  unfold guard. rewrite bind_run, call_run. fold (doing E).
  destruct (ext (doing E) w) as [[v|e] w']; [|reflexivity].
  crunch. rewrite test_run. destruct (truth v); reflexivity.
Qed.

Lemma loop_actions_cons (more : bool) (l : list bool) :
  loop_actions E message (more :: l) =
  Do (doing E) :: round_actions E message more ++ loop_actions E message l.
Proof. reflexivity. Qed.

Lemma loop_run (fuel : nat) (w : W) :
  let x := while fuel (guard ext E) (round ext E message) w in
  exists rest : list bool,
    follows x (loop_actions E message (check_replies (trace x) ++ rest)
               ++ [Do (doing E)]) /\
    (forall a, outcome x = Ok a -> rest = []).
Proof.
  cbn zeta. revert w. induction fuel as [|n IH]; intros w.
  - exists []. split; [split; [apply prefix_nil|discriminate]|discriminate].
  - cbn [while]. rewrite bind_run, guard_run.
    destruct (ext (doing E) w) as [[v|e] w1] eqn:Hg; crunch.
    2:{ exists []. split; [split; [reflexivity|discriminate]|discriminate]. }
    destruct (truth v) as [[]|]; crunch.
    3:{ exists []. split; [split; [reflexivity|discriminate]|discriminate]. }
    2:{ exists []. split; [split; reflexivity|reflexivity]. }
    rewrite bind_run.
    destruct (round_run w1) as (more & rest1 & Hc & [Hp Hf] & Hr & Hfuel).
    cbn zeta in *.
    destruct (outcome (round ext E message w1)) as [[]|e|] eqn:Ho;
      [| |destruct (Hfuel eq_refl)].
    + rewrite (Hr _ eq_refl), app_nil_r in Hc.
      destruct (IH (final (round ext E message w1))) as (rest & [Hp2 Hf2] & Hr2).
      exists rest. crunch. unfold check_replies in *.
      rewrite !answers_app, Hc.
      change (answers _ truthy [Called _ (Returns v) w1]) with (@nil bool).
      cbn [app]. rewrite loop_actions_cons.
      split; [split|]; crunch.
      * rewrite actions_cons, actions_app, (Hf _ eq_refl).
        cbn [action_of app]. apply prefix_cons. rewrite <- app_assoc.
        apply prefix_app, Hp2.
      * intros a Ha. rewrite actions_cons, actions_app, (Hf _ eq_refl), (Hf2 a Ha).
        cbn [action_of app]. rewrite <- app_assoc. reflexivity.
      * exact Hr2.
    + exists rest1. crunch. unfold check_replies in *.
      rewrite !answers_app.
      change (answers _ truthy [Called _ (Returns v) w1]) with (@nil bool).
      cbn [app]. rewrite Hc, loop_actions_cons.
      split; [split|]; crunch; try discriminate.
      rewrite actions_cons. cbn [action_of app].
      apply prefix_cons. rewrite <- app_assoc. apply prefix_app_r, Hp.
Qed.

Lemma loop_actions_Forall (P : Action -> Prop) (l : list bool) :
  (forall more, Forall P (Do (doing E) :: round_actions E message more)) ->
  Forall P (loop_actions E message l).
Proof.
  intros H. induction l as [|more l IH]; [constructor|].
  rewrite loop_actions_cons, app_comm_cons. apply Forall_app. auto.
Qed.

(** The loop neither asks for the final build nor reads [noV]. *)
Lemma loop_quiet sel read (fuel : nat) (w : W) :
  (forall more, Forall (fun a => sel a = false)
                  (Do (doing E) :: round_actions E message more)) ->
  answers sel read (trace (while fuel (guard ext E) (round ext E message) w)) = [].
Proof.
  intros H. destruct (loop_run fuel w) as (rest & Hf & _).
  eapply quiet; [exact Hf|].
  apply Forall_app. split; [apply loop_actions_Forall, H|].
  constructor; [|constructor]. specialize (H false).
  inversion H; assumption.
Qed.

Lemma final_build_run (w : W) :
  let x := final_build ext E message w in
  follows x (final_actions E message (hd false (noV_replies (trace x)))) /\
  outcome x <> OutOfFuel /\
  check_replies (trace x) = [] /\
  final_replies (trace x) = [] /\
  (forall a, outcome x = Ok a -> exists fold, noV_replies (trace x) = [fold]).
Proof.
  cbn zeta. unfold final_build. rewrite bind_run.
  rewrite print_run; crunch. rewrite bind_run, call_run.
  destruct (ext _ w) as [[nv|e] w1] eqn:Hn; crunch.
  2:{ split; [split; [eexists; reflexivity|discriminate]|].
      split; [discriminate|]. split; [reflexivity|]. split; [reflexivity|].
      discriminate. }
  set (rest := bind _ _ w1).
  assert (Hrest : follows rest
            ((if ne_zero nv then [Do (fold_V_into_T E)] else []) ++
             [Do (remake_training E); Do (optimise E message);
              Do (remake_training E); Do (save_beliefs E true);
              Do (save_design_points E true)])).
  { subst rest. rewrite test_bind.
    destruct (ne_zero_cases nv) as [Ht|[Ht Hz]]; rewrite Ht;
      [|split; [apply prefix_nil|discriminate]].
    apply follows_bind.
    - destruct (ne_zero nv); [|apply follows_ret].
      apply (follows_bind _ _ _ [_] []); [apply follows_call|].
      intros; apply follows_ret.
    - intros _ _. apply (run_calls_follows ext [_; _; _; _; _]). }
  assert (Hfuel : outcome rest <> OutOfFuel).
  { subst rest. rewrite test_bind.
    destruct (ne_zero_truth nv) as [[]|]; [| |discriminate]; rewrite bind_run.
    - rewrite bind_run, call_run.
      destruct (ext _ w1) as [[v|e] w2]; crunch; [|discriminate].
      apply (run_calls_not_out_of_fuel ext [_; _; _; _; _]).
    - rewrite ret_run; crunch. apply (run_calls_not_out_of_fuel ext [_; _; _; _; _]). }
  assert (Hq : forall sel read,
             Forall (fun a => sel a = false)
               ([Do (fold_V_into_T E); Do (remake_training E);
                 Do (optimise E message); Do (save_beliefs E true);
                 Do (save_design_points E true)]) ->
             answers sel read (trace rest) = []).
  { intros sel read Hs. eapply quiet; [exact Hrest|].
    inversion Hs as [|? ? H1 Hs1]; subst. inversion Hs1 as [|? ? H2 Hs2]; subst.
    inversion Hs2 as [|? ? H3 Hs3]; subst. inversion Hs3 as [|? ? H4 Hs4]; subst.
    inversion Hs4 as [|? ? H5 _]; subst.
    destruct (ne_zero nv); repeat constructor; assumption. }
  unfold noV_replies, check_replies, final_replies.
  change (Printed ?s :: ?l ++ ?t) with ([Printed (W := W) s] ++ l ++ t).
  rewrite !answers_app, !Hq by (repeat constructor).
  change (answers (reads Attr.noV) ne_zero [Called _ (Returns nv) w1])
    with [ne_zero nv].
  split; [|split; [exact Hfuel|split; [reflexivity|split; [reflexivity|]]]].
  - destruct Hrest as [Hp Hf].
    change (answers (reads Attr.noV) ne_zero [Printed _]) with (@nil bool).
    cbn [hd app]. unfold final_actions.
    split; crunch; rewrite !actions_cons; cbn [action_of].
    + apply prefix_cons, prefix_cons, Hp.
    + intros a Ha. rewrite (Hf a Ha). reflexivity.
  - intros _ _. exists (ne_zero nv). reflexivity.
Qed.

Lemma round_no_final (more : bool) :
  Forall (fun a => calls_method Meth.do_final_build a = false)
    (Do (doing E) :: round_actions E message more).
Proof. destruct more; repeat constructor. Qed.

Lemma round_no_noV (more : bool) :
  Forall (fun a => reads Attr.noV a = false)
    (Do (doing E) :: round_actions E message more).
Proof. destruct more; repeat constructor. Qed.

Lemma train_run (auto : bool) (fuel : nat) (w : W) :
  let x := train ext E auto message fuel w in
  exists rest : list bool,
    follows x (train_actions E message auto (check_replies (trace x) ++ rest)
                 (final_choice (trace x))) /\
    (forall a, outcome x = Ok a ->
       rest = [] /\ a = VNone /\
       exists b, final_replies (trace x) = [b] /\
                 (b = true -> exists fold, noV_replies (trace x) = [fold])).
Proof.
  cbn zeta. unfold train. rewrite bind_run, call_run.
  destruct (ext _ w) as [[v0|e] w1] eqn:Ha; crunch.
  2:{ exists []. split; [split; [|discriminate]|discriminate].
      apply (prefix_cons (Do _)), prefix_nil. }
  rewrite bind_run.
  set (loop := while fuel (guard ext E) (round ext E message) w1).
  destruct (loop_run fuel w1) as (rest & [Hp Hf] & Hr). fold loop in Hp, Hf, Hr.
  pose proof (loop_quiet (calls_method Meth.do_final_build) truthy fuel w1
                round_no_final) as Hq1.
  pose proof (loop_quiet (reads Attr.noV) ne_zero fuel w1 round_no_noV) as Hq2.
  fold loop in Hq1, Hq2.
  unfold final_choice, final_replies, noV_replies, check_replies in *.
  unfold train_actions.
  destruct (outcome loop) as [[]|e|] eqn:Ho; crunch;
    [|exists rest; rewrite !answers_app, Hq1;
      change (answers _ truthy [Called _ (Returns v0) w1]) with (@nil bool);
      cbn [app]; (split; [split; [|discriminate]|discriminate]); crunch;
      rewrite actions_cons; cbn [action_of]; apply prefix_cons;
      change (Do (doing E) :: Do (want_final E) :: [])
        with ([Do (doing E)] ++ [Do (want_final E)]);
      rewrite app_assoc; apply prefix_app_r, Hp..].
  rewrite (Hr _ eq_refl), app_nil_r in *.
  specialize (Hf _ eq_refl).
  exists []. rewrite app_nil_r.
  rewrite bind_run, call_run.
  destruct (ext _ (final loop)) as [[fb|e] w3] eqn:Hfb; crunch.
  2:{ rewrite !answers_app, Hq1.
      change (answers _ truthy [Called _ (Raises e) w3]) with (@nil bool).
      change (answers _ truthy [Called _ (Returns v0) w1]) with (@nil bool).
      change (answers _ truthy [Called _ (Raises e) w3]) with (@nil bool).
      rewrite ?app_nil_r. cbn [app].
      split; [split; [|discriminate]|discriminate]. crunch.
      norm_actions. rewrite Hf, <- app_assoc. reflexivity. }
  rewrite test_bind.
  destruct (truth_cases fb) as [Hcase|[Hcase Ht]]; rewrite Hcase;
    [destruct (truthy fb) eqn:Ht; rewrite bind_run|].
  - pose proof (final_build_run w3) as (Hff & Hfuel & Hc3 & Hf3 & Hn3).
    cbn zeta in *.
    set (fin := final_build ext E message w3) in *.
    unfold final_choice, final_replies, noV_replies, check_replies in *.
    assert (Hsame : forall t : list (Event W),
              answers (calls_method Meth.do_final_build) truthy
                ([Called (CallMeth (tv_conf E) Meth.auto_train [VBool auto] [])
                    (Returns v0) w1] ++ trace loop ++
                 [Called (CallMeth (tv_conf E) Meth.do_final_build [] [])
                    (Returns fb) w3] ++ t) =
              true :: answers (calls_method Meth.do_final_build) truthy t).
    { intros t. rewrite !answers_app, Hq1.
      change (answers _ truthy [Called _ (Returns fb) w3]) with [truthy fb].
      rewrite Ht. reflexivity. }
    assert (HnoV : forall t : list (Event W),
              answers (reads Attr.noV) ne_zero
                ([Called (CallMeth (tv_conf E) Meth.auto_train [VBool auto] [])
                    (Returns v0) w1] ++ trace loop ++
                 [Called (CallMeth (tv_conf E) Meth.do_final_build [] [])
                    (Returns fb) w3] ++ t) =
              answers (reads Attr.noV) ne_zero t).
    { intros t. rewrite !answers_app, Hq2. reflexivity. }
    assert (Hchk : forall t : list (Event W),
              answers (calls_method Meth.check_still_training) truthy
                ([Called (CallMeth (tv_conf E) Meth.auto_train [VBool auto] [])
                    (Returns v0) w1] ++ trace loop ++
                 [Called (CallMeth (tv_conf E) Meth.do_final_build [] [])
                    (Returns fb) w3] ++ t) =
              answers (calls_method Meth.check_still_training) truthy (trace loop)
              ++ answers (calls_method Meth.check_still_training) truthy t).
    { intros t. rewrite !answers_app. reflexivity. }
    destruct Hff as [Hp3 Hf3'].
    destruct (outcome fin) as [[]|e|] eqn:Hofin; crunch;
      [|clear Hn3|destruct (Hfuel eq_refl)].
    + rewrite ret_run; crunch. rewrite app_nil_r.
      rewrite Hsame, HnoV, Hchk, Hc3, Hf3, app_nil_r.
      destruct (Hn3 _ eq_refl) as (fold & Hfold). rewrite Hfold in *.
      split; [split|]; crunch.
      * norm_actions. rewrite Hf, (Hf3' _ eq_refl), <- app_assoc. reflexivity.
      * intros _ _.
        norm_actions. rewrite Hf, (Hf3' _ eq_refl), <- app_assoc. reflexivity.
      * intros a Hok. injection Hok as <-.
        split; [reflexivity|]. split; [reflexivity|].
        exists true. split; [reflexivity|]. intros _. exists fold. reflexivity.
    + rewrite Hsame, HnoV, Hchk, Hc3, Hf3, app_nil_r.
      split; [split|]; crunch; try discriminate.
      norm_actions. rewrite Hf, <- app_assoc.
      apply prefix_cons, prefix_app.
      apply (prefix_cons (Do (doing E))), (prefix_cons (Do (want_final E))), Hp3.
  - rewrite !ret_run; crunch. rewrite !app_nil_r.
    rewrite !answers_app, Hq1, Hq2.
    change (answers (calls_method Meth.do_final_build) truthy
              [Called _ (Returns fb) w3]) with [truthy fb].
    change (answers (calls_method Meth.check_still_training) truthy
              [Called _ (Returns fb) w3]) with (@nil bool).
    change (answers (calls_method Meth.check_still_training) truthy
              [Called _ (Returns v0) w1]) with (@nil bool).
    rewrite Ht, ?app_nil_r. cbn [app].
    split; [split|]; crunch.
    + norm_actions. rewrite Hf, <- app_assoc. reflexivity.
    + intros _ _. norm_actions. rewrite Hf, <- app_assoc. reflexivity.
    + intros a Hok. injection Hok as <-.
      split; [reflexivity|]. split; [reflexivity|].
      exists false. split; [reflexivity|]. discriminate.
  - crunch. rewrite ?app_nil_r.
    rewrite !answers_app, Hq1, Hq2.
    change (answers (calls_method Meth.do_final_build) truthy
              [Called _ (Returns fb) w3]) with [truthy fb].
    change (answers (calls_method Meth.check_still_training) truthy
              [Called _ (Returns fb) w3]) with (@nil bool).
    change (answers (calls_method Meth.check_still_training) truthy
              [Called _ (Returns v0) w1]) with (@nil bool).
    rewrite Ht, ?app_nil_r. cbn [app].
    split; [split; [|discriminate]|discriminate]. crunch.
    norm_actions. rewrite Hf, <- app_assoc. reflexivity.
Qed.
End Shape.

(** ** Counting the actions of a run *)

Lemma count_of_app (sel : Action -> bool) (l1 l2 : list Action) :
  count_of sel (l1 ++ l2) = count_of sel l1 + count_of sel l2.
Proof. unfold count_of. rewrite List.filter_app, length_app. reflexivity. Qed.

Lemma count_of_loop (sel : Action -> bool) (E : Emulator) (message : bool)
    (l : list bool) :
  count_of sel (loop_actions E message l) =
  length l * count_of sel (Do (doing E) :: round_actions E message false) +
  length (List.filter id l) * count_of sel (promote_actions E).
Proof.
  induction l as [|more l IH]; [reflexivity|].
  rewrite loop_actions_cons, app_comm_cons, count_of_app, IH.
  destruct more; cbn [List.filter id length]; [|lia].
  change (Do (doing E) :: round_actions E message true)
    with ((Do (doing E) :: round_actions E message false) ++ promote_actions E).
  rewrite count_of_app. lia.
Qed.

Lemma count_of_train (sel : Action -> bool) (E : Emulator) (message auto : bool)
    (l : list bool) (fin : option bool) :
  count_of sel (train_actions E message auto l fin) =
  count_of sel [Do (CallMeth E.(tv_conf) Meth.auto_train [VBool auto] []);
                Do (doing E); Do (want_final E)] +
  length l * count_of sel (Do (doing E) :: round_actions E message false) +
  length (List.filter id l) * count_of sel (promote_actions E) +
  match fin with
  | Some fold => count_of sel (final_actions E message fold)
  | None => 0
  end.
Proof.
  unfold train_actions.
  change (?a :: ?l1 ++ ?b :: ?c :: ?l2) with ([a] ++ l1 ++ [b; c] ++ l2).
  rewrite !count_of_app, count_of_loop.
  change [Do (CallMeth E.(tv_conf) Meth.auto_train [VBool auto] []);
          Do (doing E); Do (want_final E)]
    with ([Do (CallMeth E.(tv_conf) Meth.auto_train [VBool auto] [])] ++
          [Do (doing E); Do (want_final E)]).
  rewrite count_of_app. destruct fin; [lia|].
  change (count_of sel []) with 0. lia.
Qed.

(** ** Where the diagnostics stand in a run *)

Section Positions.
Variable sel : Action -> bool.
Variable before : list Action.

Lemma preceded_none (L : list Action) :
  Forall (fun a => sel a = false) L -> preceded sel before L.
Proof.
  intros H pre a post -> Ha.
  apply Forall_app in H as [_ H]. inversion H as [|? ? Hx _]; subst.
  congruence.
Qed.

Lemma preceded_app (l1 l2 : list Action) :
  preceded sel before l1 -> preceded sel before l2 ->
  preceded sel before (l1 ++ l2).
Proof.
  intros H1 H2 pre a post Heq Ha.
  apply app_eq_app in Heq as [l [[-> Hl]|[-> Hl]]].
  - destruct l as [|b l].
    + cbn in Hl. destruct (H2 [] a post (eq_sym Hl) Ha) as [pre0 Hp].
      exists (pre ++ pre0). rewrite <- (app_assoc pre pre0 before), <- Hp, app_nil_r. reflexivity.
    + cbn in Hl. injection Hl as <- ->.
      eapply (H1 pre a l); [reflexivity|exact Ha].
  - destruct (H2 l a post Hl Ha) as [pre0 ->].
    exists (l1 ++ pre0). rewrite app_assoc. reflexivity.
Qed.

Lemma preceded_prefix (l1 l2 : list Action) :
  l1 `prefix_of` l2 -> preceded sel before l2 -> preceded sel before l1.
Proof.
  intros [k ->] H pre a post -> Ha.
  apply (H pre a (post ++ k)); [|exact Ha].
  rewrite <- app_assoc. reflexivity.
Qed.
End Positions.

Ltac scan Ha :=
  repeat match goal with
    | H : _ :: _ = ?p ++ _ :: _ |- _ =>
        let x := fresh "x" in
        let p' := fresh "p" in
        destruct p as [|x p']; cbn [app] in H;
        [injection H as ? ?; subst;
         first [exfalso; vm_compute in Ha; discriminate Ha
               |exists []; reflexivity]
        |injection H as ? H; subst]
    | H : [] = ?p ++ _ :: _ |- _ => destruct p; discriminate H
    end.

Section Diagnostics.
Variable E : Emulator.
Variable message : bool.

Lemma validate_preceded_1 :
  preceded (calls_method Meth.mahalanobis_distance) (rebuilt E message)
    (validate_actions E message).
Proof.
  intros pre a post H Ha. unfold validate_actions, rebuilt in H. cbn [app] in H.
  scan Ha.
Qed.

Lemma validate_preceded_2 :
  preceded (calls_method Meth.indiv_standard_error)
    (rebuilt E message ++ [Do (mahalanobis E)])
    (validate_actions E message).
Proof.
  intros pre a post H Ha. unfold validate_actions, rebuilt in H. cbn [app] in H.
  scan Ha.
Qed.

Lemma train_preceded (sel : Action -> bool) (before : list Action)
    (auto : bool) (answers : list bool) (fin : option bool) :
  preceded sel before (validate_actions E message) ->
  Forall (fun a => sel a = false)
    [Do (CallMeth E.(tv_conf) Meth.auto_train [VBool auto] []);
     Do (doing E); Do (still E); Do (want_final E)] ->
  Forall (fun a => sel a = false) (promote_actions E) ->
  (forall fold, Forall (fun a => sel a = false) (final_actions E message fold)) ->
  preceded sel before (train_actions E message auto answers fin).
Proof.
  intros Hv Hn Hp Hf.
  inversion Hn as [|? ? Ha Hn1]; subst. inversion Hn1 as [|? ? Hd Hn2]; subst.
  inversion Hn2 as [|? ? Hs Hn3]; subst. inversion Hn3 as [|? ? Hw _]; subst.
  unfold train_actions.
  apply (preceded_app _ _ [_]); [apply preceded_none; repeat constructor; assumption|].
  apply preceded_app.
  - induction answers as [|more l IH]; [apply preceded_none; constructor|].
    change (loop_actions E message (more :: l))
      with ([Do (doing E)] ++ round_actions E message more ++ loop_actions E message l).
    apply preceded_app; [apply preceded_none; repeat constructor; assumption|].
    apply preceded_app; [|exact IH].
    unfold round_actions. apply preceded_app; [exact Hv|].
    apply preceded_none. constructor; [assumption|].
    destruct more; [assumption|constructor].
  - apply preceded_none. constructor; [assumption|]. constructor; [assumption|].
    destruct fin as [fold|]; [apply Hf|constructor].
Qed.
End Diagnostics.

(** ** [train]: the validation rounds *)

(** C1.  Whatever the collaborators answer, a run of [train] performs the
    calls of [train_actions] in that order: [auto_train], then one round per
    true guard, each round being the full optimisation, the rebuild of the
    training, validation and posterior states, the Mahalanobis distance, the
    standardised errors, the two saves with [is_final_build = False], the
    question [check_still_training] and, exactly when its answer is true, the
    fold of the validation block, the advance of the partition, the choice
    of the new block and the three rebuilds again.  A run cut short by an
    exception or by the fuel performs an initial part of that list; a run
    that returns performs all of it, the rounds being those the answers of
    [check_still_training] dictate.  Hence every Mahalanobis distance comes
    right after the optimisation and the three rebuilds, and every
    standardised error right after those and the Mahalanobis distance. *)
Theorem train_round_order {W} (ext : Call -> W -> Reply * W) (E : Emulator)
    (auto message : bool) (fuel : nat) (w : W) :
  let x := train ext E auto message fuel w in
  exists rest : list bool,
    follows x (train_actions E message auto (check_replies (trace x) ++ rest)
                 (final_choice (trace x))) /\
    (forall a, outcome x = Ok a -> rest = []) /\
    preceded (calls_method Meth.mahalanobis_distance)
      (rebuilt E message) (actions (trace x)) /\
    preceded (calls_method Meth.indiv_standard_error)
      (rebuilt E message ++ [Do (mahalanobis E)]) (actions (trace x)).
Proof.
  cbn zeta.
  destruct (train_run ext E message auto fuel w) as (rest & Hf & Hok).
  exists rest. split; [exact Hf|]. split; [intros a Ha; apply (Hok a Ha)|].
  destruct Hf as [Hp _].
  split; (eapply preceded_prefix; [exact Hp|]).
  - apply train_preceded;
      [apply validate_preceded_1|repeat constructor..|intros []; repeat constructor].
  - apply train_preceded;
      [apply validate_preceded_2|repeat constructor..|intros []; repeat constructor].
Qed.

(** ** [train]: the final build *)

(** C2.  In a run of [train] that returns, [do_final_build] is asked once,
    after the loop.  When its answer is true the run goes on with the
    message, the read of [noV], the fold [incVinT] exactly when [noV != 0],
    the rebuild of the training state, the full optimisation, the rebuild
    of the training state again and the two saves with
    [is_final_build = True]; with [noV == 0] only the fold is left out.
    When its answer is false nothing follows. *)
Theorem final_build_order {W} (ext : Call -> W -> Reply * W) (E : Emulator)
    (auto message : bool) (fuel : nat) (w : W) :
  let x := train ext E auto message fuel w in
  outcome x = Ok VNone ->
  exists (b fold : bool) (head : list Action),
    final_replies (trace x) = [b] /\
    (b = true -> noV_replies (trace x) = [fold]) /\
    Forall (fun a => calls_method Meth.do_final_build a = false) head /\
    actions (trace x) =
      head ++ Do (want_final E) ::
      (if b then
         Say (nl +:+ "***Doing final build***") :: Do (read_noV E) ::
         (if fold then [Do (fold_V_into_T E)] else []) ++
         [Do (remake_training E); Do (optimise E message); Do (remake_training E);
          Do (save_beliefs E true); Do (save_design_points E true)]
       else []).
Proof.
  cbn zeta. intros Hret.
  destruct (train_run ext E message auto fuel w) as (rest & [_ Hf] & Hok).
  destruct (Hok _ Hret) as (-> & _ & b & Hb & Hfold).
  specialize (Hf _ Hret). rewrite app_nil_r in Hf.
  unfold final_choice in Hf. rewrite Hb in Hf.
  assert (Hhead : Forall (fun a => calls_method Meth.do_final_build a = false)
            (Do (CallMeth E.(tv_conf) Meth.auto_train [VBool auto] []) ::
             loop_actions E message (check_replies (trace (train ext E auto message fuel w)))
             ++ [Do (doing E)])).
  { constructor; [reflexivity|]. apply Forall_app. split; [|repeat constructor].
    apply loop_actions_Forall, round_no_final. }
  destruct b.
  - destruct (Hfold eq_refl) as (fold & Hn). rewrite Hn in Hf.
    exists true, fold. eexists. split; [exact Hb|]. split; [intros _; exact Hn|].
    split; [exact Hhead|].
    rewrite Hf. unfold train_actions. cbn [hd app].
    rewrite <- app_assoc. reflexivity.
  - exists false, false. eexists. split; [exact Hb|]. split; [discriminate|].
    split; [exact Hhead|].
    rewrite Hf. unfold train_actions. cbn [app].
    rewrite <- app_assoc. reflexivity.
Qed.

Lemma final_build_order_witness :
  outcome (Spec.sample_run true) = Ok VNone /\
  exists (b fold : bool) (head : list Action),
    final_replies (trace (Spec.sample_run true)) = [b] /\
    (b = true -> noV_replies (trace (Spec.sample_run true)) = [fold]) /\
    Forall (fun a => calls_method Meth.do_final_build a = false) head /\
    actions (trace (Spec.sample_run true)) =
      head ++ Do (want_final Spec.emu) ::
      (if b then
         Say (nl +:+ "***Doing final build***") :: Do (read_noV Spec.emu) ::
         (if fold then [Do (fold_V_into_T Spec.emu)] else []) ++
         [Do (remake_training Spec.emu); Do (optimise Spec.emu false);
          Do (remake_training Spec.emu);
          Do (save_beliefs Spec.emu true); Do (save_design_points Spec.emu true)]
       else []).
Proof.
  split; [vm_compute; reflexivity|].
  apply (final_build_order (Spec.closing VNone) Spec.emu true false 10 (Spec.sample true)).
  vm_compute; reflexivity.
Defined.

(** ** [train]: what the final build leaves stale *)

Lemma split_after {A} (x : A) (P F pre q : list A) :
  P ++ F = pre ++ x :: q ->
  Forall (fun a => a <> x) P ->
  exists l, pre = P ++ l /\ F = l ++ x :: q.
Proof.
  intros Heq HP.
  apply app_eq_app in Heq as [l [[-> Hl]|[-> Hl]]].
  - destruct l as [|y l].
    + exists []. rewrite !app_nil_r. split; [reflexivity|]. symmetry. exact Hl.
    + cbn in Hl. injection Hl as <- _.
      apply Forall_app in HP as [_ HP]. inversion HP as [|? ? Hx _]; subst.
      destruct (Hx eq_refl).
  - exists l. split; [reflexivity|exact Hl].
Qed.

Lemma cons_inv {A} (a b : A) (l m : list A) : a :: l = b :: m -> a = b /\ l = m.
Proof. intros H. injection H. auto. Qed.

Ltac find_last H :=
  repeat match type of H with
    | _ :: _ = ?l ++ _ :: _ =>
        let y := fresh "y" in
        let l' := fresh "l" in
        let Hx := fresh "Hx" in
        destruct l as [|y l']; cbn [app] in H; apply cons_inv in H as [Hx H];
        [try discriminate Hx|subst y]
    | [] = ?l ++ _ :: _ => destruct l; discriminate H
    end.

(** C7.  Whenever a run of [train] calls [final_design_points(E, True)],
    that call is the last action of the run and what precedes it is the
    loop, the question [do_final_build] and the final build up to
    [final_beliefs(E, True)].  Between [do_final_build] and that call the
    training state is rebuilt twice, the hyperparameters are optimised
    once, the validation block is folded in when [noV != 0], and neither
    the validation state nor the posterior is rebuilt: the posterior the
    call works on was last rebuilt in the loop, if at all. *)
Theorem final_build_keeps_old_posterior {W} (ext : Call -> W -> Reply * W)
    (E : Emulator) (auto message : bool) (fuel : nat) (w : W) :
  E.(training) <> E.(post) ->
  E.(training) <> E.(validation) ->
  let x := train ext E auto message fuel w in
  forall pre post',
    actions (trace x) = pre ++ Do (save_design_points E true) :: post' ->
    exists (answers : list bool) (fold : bool) (fin : list Action),
      final_choice (trace x) = Some fold /\
      post' = [] /\
      pre = Do (CallMeth E.(tv_conf) Meth.auto_train [VBool auto] []) ::
            loop_actions E message answers ++ Do (doing E) :: fin /\
      fin = Do (want_final E) ::
            Say (nl +:+ "***Doing final build***") :: Do (read_noV E) ::
            (if fold then [Do (fold_V_into_T E)] else []) ++
            [Do (remake_training E); Do (optimise E message);
             Do (remake_training E); Do (save_beliefs E true)] /\
      Forall (fun a => a <> Do (remake_post E) /\ a <> Do (remake_validation E)) fin.
Proof.
  intros Hpost Hval. cbn zeta. intros pre post' Hsplit.
  destruct (train_run ext E message auto fuel w) as (rest & [[k Hp] _] & _).
  rewrite Hsplit, <- app_assoc in Hp. cbn [app] in Hp.
  unfold train_actions in Hp.
  set (answers := check_replies _ ++ rest) in Hp.
  set (P := Do (CallMeth (tv_conf E) Meth.auto_train [VBool auto] []) ::
            loop_actions E message answers ++ [Do (doing E); Do (want_final E)]).
  assert (HP : Forall (fun a => a <> Do (save_design_points E true)) P).
  { subst P. constructor; [discriminate|]. apply Forall_app. split.
    - apply loop_actions_Forall. intros []; repeat (constructor; [discriminate|]); constructor.
    - repeat (constructor; [discriminate|]); constructor. }
  destruct (final_choice (trace (train ext E auto message fuel w))) as [fold|] eqn:Hfc.
  - assert (Heq : P ++ final_actions E message fold =
                  pre ++ Do (save_design_points E true) :: post' ++ k).
    { rewrite <- Hp. subst P. cbn [app]. rewrite <- app_assoc. reflexivity. }
    destruct (split_after _ _ _ _ _ Heq HP) as (l & -> & Hl).
    clear Heq Hp HP Hsplit.
    unfold final_actions in Hl. destruct fold; cbn [app] in Hl.
    + find_last Hl.
      exists answers, true. eexists.
      split; [reflexivity|]. split; [symmetry in Hl; apply app_eq_nil in Hl; tauto|].
      split; [subst P; cbn [app]; rewrite <- app_assoc; reflexivity|].
      split; [reflexivity|].
      repeat (constructor;
              [split; intros Hc; first [discriminate Hc|injection Hc; congruence]|]).
      constructor.
    + find_last Hl.
      exists answers, false. eexists.
      split; [reflexivity|]. split; [symmetry in Hl; apply app_eq_nil in Hl; tauto|].
      split; [subst P; cbn [app]; rewrite <- app_assoc; reflexivity|].
      split; [reflexivity|].
      repeat (constructor;
              [split; intros Hc; first [discriminate Hc|injection Hc; congruence]|]).
      constructor.
  - exfalso.
    assert (Heq : P ++ [] = pre ++ Do (save_design_points E true) :: post' ++ k).
    { rewrite <- Hp. subst P. cbn [app]. rewrite <- !app_assoc. reflexivity. }
    destruct (split_after _ _ _ _ _ Heq HP) as (l & _ & Hl).
    destruct l; discriminate Hl.
Qed.

Lemma final_build_keeps_old_posterior_witness :
  exists (answers : list bool) (fold : bool) (fin : list Action),
    final_choice (trace (Spec.sample_run true)) = Some fold /\
    @nil Action = [] /\
    removelast (actions (trace (Spec.sample_run true))) =
      Do (CallMeth Spec.emu.(tv_conf) Meth.auto_train [VBool true] []) ::
      loop_actions Spec.emu false answers ++ Do (doing Spec.emu) :: fin /\
    fin = Do (want_final Spec.emu) ::
          Say (nl +:+ "***Doing final build***") :: Do (read_noV Spec.emu) ::
          (if fold then [Do (fold_V_into_T Spec.emu)] else []) ++
          [Do (remake_training Spec.emu); Do (optimise Spec.emu false);
           Do (remake_training Spec.emu); Do (save_beliefs Spec.emu true)] /\
    Forall (fun a => a <> Do (remake_post Spec.emu) /\
                     a <> Do (remake_validation Spec.emu)) fin.
Proof.
  apply (final_build_keeps_old_posterior (Spec.closing VNone) Spec.emu true false 10
           (Spec.sample true)
           ltac:(discriminate) ltac:(discriminate)
           (removelast (actions (trace (Spec.sample_run true)))) []).
  vm_compute. reflexivity.
Defined.

(** ** The diagnostics and the control flow *)

Section Sim.
Context {W : Type}.
Variables ext1 ext2 : Call -> W -> Reply * W.
Hypothesis Hsame : same_but_diagnostics ext1 ext2.

Lemma sim_ret {A} (R : A -> A -> Prop) (a b : A) (w : W) :
  R a b -> same_run R (ret a w) (ret b w).
Proof. intros H. split; [reflexivity|]. split; [constructor|exact H]. Qed.

Lemma sim_print (s : string) (w : W) : same_run eq (print s w) (print s w).
Proof.
  split; [reflexivity|]. split; [|reflexivity].
  constructor; [reflexivity|constructor].
Qed.

Lemma sim_test (t : Val -> option bool) (v : Val) (w : W) :
  same_run eq (test t v w) (test t v w).
Proof.
  rewrite test_run. split; [reflexivity|]. split; [constructor|].
  destruct (t v); reflexivity.
Qed.

Lemma sim_call (c : Call) (w : W) :
  same_run (if is_diagnostic_call c then any else eq) (call ext1 c w) (call ext2 c w).
Proof.
  rewrite !call_run. destruct (Hsame c w) as [Hw Hr].
  split; [exact Hw|]. split; crunch.
  - constructor; [|constructor]. cbn. auto.
  - unfold same_reply in Hr.
    destruct (is_diagnostic_call c), (ext1 c w).1, (ext2 c w).1; cbn in *;
      congruence || exact I.
Qed.

Lemma sim_bind {A B} (R : A -> A -> Prop) (S : B -> B -> Prop)
    (m1 m2 : M W A) (k1 k2 : A -> M W B) (w : W) :
  same_run R (m1 w) (m2 w) ->
  (forall a b w', R a b -> same_run S (k1 a w') (k2 b w')) ->
  same_run S (bind m1 k1 w) (bind m2 k2 w).
Proof.
  intros (Hw & Ht & Ho) Hk. rewrite !bind_run.
  destruct (outcome (m1 w)) as [a|e|], (outcome (m2 w)) as [b|e'|];
    cbn in Ho; try contradiction.
  - destruct (Hk a b (final (m1 w)) Ho) as (Hw2 & Ht2 & Ho2).
    rewrite <- Hw. split; [exact Hw2|]. split; crunch; [|exact Ho2].
    apply Forall2_app; assumption.
  - subst e'. split; [exact Hw|]. split; [exact Ht|reflexivity].
  - split; [exact Hw|]. split; [exact Ht|exact I].
Qed.

Lemma sim_run_calls (cs : list Call) (w : W) :
  same_run any (run_calls ext1 cs w) (run_calls ext2 cs w).
Proof.
  revert w. induction cs as [|c cs IH]; intros w.
  - apply sim_ret. exact I.
  - cbn [run_calls]. eapply sim_bind; [apply sim_call|].
    intros _ _ w' _. apply IH.
Qed.

Lemma sim_while (c1 c2 : M W bool) (b1 b2 : M W unit) (fuel : nat) (w : W) :
  (forall w, same_run eq (c1 w) (c2 w)) ->
  (forall w, same_run any (b1 w) (b2 w)) ->
  same_run any (while fuel c1 b1 w) (while fuel c2 b2 w).
Proof.
  intros Hc Hb. revert w. induction fuel as [|n IH]; intros w.
  - split; [reflexivity|]. split; [constructor|exact I].
  - cbn [while]. eapply sim_bind; [apply Hc|].
    intros b ? w' <-. destruct b; [|apply sim_ret; exact I].
    eapply sim_bind; [apply Hb|]. intros _ _ w'' _. apply IH.
Qed.

Variable E : Emulator.
Variable message : bool.

Lemma sim_round (w : W) :
  same_run any (round ext1 E message w) (round ext2 E message w).
Proof.
  unfold round. eapply sim_bind; [apply (sim_run_calls [_; _; _; _; _; _; _; _])|].
  intros _ _ w1 _. eapply sim_bind; [apply sim_call|].
  cbn. intros v ? w2 <-. eapply sim_bind; [apply sim_test|].
  intros more ? w2' <-. destruct more; [|apply sim_ret; exact I].
  unfold promote. eapply sim_bind; [apply sim_print|].
  intros _ _ w3 _. apply (sim_run_calls [_; _; _; _; _; _]).
Qed.

Lemma sim_guard (w : W) : same_run eq (guard ext1 E w) (guard ext2 E w).
Proof.
  unfold guard. eapply sim_bind; [apply sim_call|].
  cbn. intros v ? w' <-. apply sim_test.
Qed.

Lemma sim_final_build (w : W) :
  same_run any (final_build ext1 E message w) (final_build ext2 E message w).
Proof.
  unfold final_build. eapply sim_bind; [apply sim_print|].
  intros _ _ w1 _. eapply sim_bind; [apply sim_call|].
  cbn. intros n ? w2 <-. eapply sim_bind; [apply sim_test|].
  intros fold ? w2' <-.
  eapply (sim_bind any).
  - destruct fold; [|apply sim_ret; exact I].
    eapply sim_bind; [apply sim_call|]. intros _ _ w3 _. apply sim_ret. exact I.
  - intros _ _ w3 _. apply (sim_run_calls [_; _; _; _; _]).
Qed.

Lemma sim_train (auto : bool) (fuel : nat) (w : W) :
  same_run eq (train ext1 E auto message fuel w) (train ext2 E auto message fuel w).
Proof.
  unfold train. eapply sim_bind; [apply sim_call|].
  intros _ _ w1 _. eapply sim_bind; [apply sim_while; [apply sim_guard|apply sim_round]|].
  intros _ _ w2 _. eapply sim_bind; [apply sim_call|].
  cbn. intros fb ? w3 <-. eapply sim_bind; [apply sim_test|].
  intros final ? w3' <-. eapply (sim_bind any).
  - destruct final; [apply sim_final_build|apply sim_ret; exact I].
  - intros _ _ w4 _. apply sim_ret. reflexivity.
Qed.
End Sim.

Lemma same_events_actions {W} (t1 t2 : list (Event W)) :
  Forall2 same_event t1 t2 -> actions t1 = actions t2.
Proof.
  induction 1 as [|e1 e2 t1 t2 He _ IH]; [reflexivity|].
  rewrite !actions_cons, IH. f_equal.
  destruct e1, e2; cbn in *; try contradiction.
  - destruct He as [-> _]. reflexivity.
  - subst. reflexivity.
Qed.

Lemma same_events_answers {W} sel read (t1 t2 : list (Event W)) :
  (forall c, is_diagnostic_call c = true -> sel (Do c) = false) ->
  Forall2 same_event t1 t2 -> answers sel read t1 = answers sel read t2.
Proof.
  intros Hsel. induction 1 as [|e1 e2 t1 t2 He _ IH]; [reflexivity|].
  change (e1 :: t1) with ([e1] ++ t1). change (e2 :: t2) with ([e2] ++ t2).
  rewrite !answers_app, IH. f_equal.
  destruct e1 as [c1 r1 w1|s1], e2 as [c2 r2 w2|s2]; cbn in *; try contradiction;
    [|reflexivity].
  destruct He as (<- & _ & Hr). unfold same_reply in Hr. unfold answers. cbn.
  destruct (is_diagnostic_call c1) eqn:Hd.
  - rewrite (Hsel c1 Hd). destruct r1, r2; reflexivity.
  - subst r2. reflexivity.
Qed.

Lemma same_outcome_eq {A} (o1 o2 : Outcome A) : same_outcome eq o1 o2 -> o1 = o2.
Proof. destruct o1, o2; cbn; intros H; try contradiction; congruence. Qed.

Lemma standard_error_only (E : Emulator) (message auto : bool)
    (answers : list bool) (fin : option bool) :
  Forall (fun a => calls_method Meth.indiv_standard_error a = true ->
                   a = Do (standard_error E))
    (train_actions E message auto answers fin).
Proof.
  unfold train_actions.
  constructor; [discriminate|]. apply Forall_app. split.
  - apply loop_actions_Forall. intros more.
    destruct more;
      repeat (constructor;
              [intros H; first [reflexivity|vm_compute in H; discriminate H]|]);
      constructor.
  - destruct fin as [[]|];
      repeat (constructor;
              [intros H; first [reflexivity|vm_compute in H; discriminate H]|]);
      constructor.
Qed.

Lemma plan_call_same_but_diagnostics (closes : bool) (r1 r2 : Val) :
  same_but_diagnostics (Spec.plan_call closes r1) (Spec.plan_call closes r2).
Proof.
  intros c w. destruct c as [f args kw|self m args kw|obj a].
  - split; reflexivity.
  - destruct m; split; reflexivity.
  - split; reflexivity.
Qed.

Lemma round_preceded_check (E : Emulator) (message more : bool) :
  preceded (calls_method Meth.check_still_training) (validate_actions E message)
    (round_actions E message more).
Proof.
  intros pre a post H Ha.
  unfold round_actions, validate_actions, rebuilt, promote_actions in H.
  destruct more; cbn [app] in H; scan Ha.
Qed.

Lemma train_preceded_check (E : Emulator) (message auto : bool)
    (answers : list bool) (fin : option bool) :
  preceded (calls_method Meth.check_still_training) (validate_actions E message)
    (train_actions E message auto answers fin).
Proof.
  unfold train_actions.
  apply (preceded_app _ _ [_]); [apply preceded_none; repeat constructor|].
  apply preceded_app.
  - induction answers as [|more l IH]; [apply preceded_none; constructor|].
    change (loop_actions E message (more :: l))
      with ([Do (doing E)] ++ round_actions E message more ++ loop_actions E message l).
    apply preceded_app; [apply preceded_none; repeat constructor|].
    apply preceded_app; [apply round_preceded_check|exact IH].
  - apply preceded_none. do 2 (constructor; [reflexivity|]).
    destruct fin as [[]|]; repeat constructor.
Qed.

(** C5.  A run of [train] is made of the rounds of [train_actions], each
    of which holds the call [E.post.indiv_standard_error(ise=2.0)]: whenever
    [check_still_training] is asked, the eight calls of the round come right
    before it, the standardised errors with [ise=2.0] among them; a run that
    returns has made that call once per round; and no other call of
    [indiv_standard_error] is made.  And [train] does not look
    at what the two diagnostics return: in an environment that differs
    only in the values [mahalanobis_distance] and [indiv_standard_error]
    return, the run makes the same calls in the same order, gets the same
    answers from [check_still_training], ends in the same state and has
    the same outcome. *)
Theorem diagnostics_do_not_steer {W} (ext : Call -> W -> Reply * W)
    (E : Emulator) (auto message : bool) (fuel : nat) (w : W) :
  let x := train ext E auto message fuel w in
  let ise := Do (CallMeth E.(post) Meth.indiv_standard_error []
                   [("ise", VFloat (2 # 1))]) in
  (exists rest : list bool,
     follows x (train_actions E message auto (check_replies (trace x) ++ rest)
                  (final_choice (trace x)))) /\
  preceded (calls_method Meth.check_still_training)
    [Do (optimise E message); Do (remake_training E); Do (remake_validation E);
     Do (remake_post E); Do (mahalanobis E); ise;
     Do (save_beliefs E false); Do (save_design_points E false)]
    (actions (trace x)) /\
  (forall a, outcome x = Ok a ->
     count_of (calls_method Meth.indiv_standard_error) (actions (trace x)) =
     length (check_replies (trace x))) /\
  Forall (fun a => calls_method Meth.indiv_standard_error a = true -> a = ise)
    (actions (trace x)) /\
  forall ext' : Call -> W -> Reply * W,
    same_but_diagnostics ext ext' ->
    let x' := train ext' E auto message fuel w in
    outcome x' = outcome x /\
    final x' = final x /\
    actions (trace x') = actions (trace x) /\
    check_replies (trace x') = check_replies (trace x).
Proof.
  cbn zeta.
  destruct (train_run ext E message auto fuel w) as (rest & [Hp Heq] & Hok).
  cbn zeta in *.
  split; [exists rest; split; assumption|].
  split; [eapply preceded_prefix; [exact Hp|apply train_preceded_check]|].
  split.
  { intros a Ha. destruct (Hok a Ha) as (-> & _). rewrite app_nil_r in Heq.
    rewrite (Heq a Ha), count_of_train.
    destruct (final_choice _) as [[]|]; vm_compute count_of; lia. }
  split.
  - eapply Forall_prefix_of; [exact Hp|]. apply standard_error_only.
  - intros ext' Hsame.
    destruct (sim_train ext ext' Hsame E message auto fuel w) as (Hw & Ht & Ho).
    split; [symmetry; apply same_outcome_eq, Ho|].
    split; [symmetry; exact Hw|].
    split; [symmetry; apply same_events_actions, Ht|].
    symmetry. apply same_events_answers; [|exact Ht].
    intros [f args kw|self m args kw|obj a] Hd; try discriminate Hd.
    destruct m; try discriminate Hd; reflexivity.
Qed.

Lemma diagnostics_do_not_steer_witness :
  same_but_diagnostics (Spec.closing VNone) (Spec.closing (VFloat (7 # 2))) /\
  outcome (train (Spec.closing (VFloat (7 # 2))) Spec.emu true false 10 (Spec.sample true))
  = outcome (Spec.sample_run true) /\
  final (train (Spec.closing (VFloat (7 # 2))) Spec.emu true false 10 (Spec.sample true))
  = final (Spec.sample_run true) /\
  actions (trace (train (Spec.closing (VFloat (7 # 2))) Spec.emu true false 10
                    (Spec.sample true)))
  = actions (trace (Spec.sample_run true)) /\
  check_replies (trace (train (Spec.closing (VFloat (7 # 2))) Spec.emu true false 10
                          (Spec.sample true)))
  = check_replies (trace (Spec.sample_run true)).
Proof.
  split; [apply plan_call_same_but_diagnostics|].
  apply (proj2 (proj2 (proj2 (proj2
           (diagnostics_do_not_steer (Spec.closing VNone) Spec.emu true false 10
              (Spec.sample true)))))).
  apply plan_call_same_but_diagnostics.
Defined.

(** ** Chained traces *)

Section Chain.
Context {W : Type}.
Variable ext : Call -> W -> Reply * W.

Lemma steps_app (w : W) (t1 t2 : list (Event W)) :
  steps w (t1 ++ t2) = steps w t1 ++ steps (last_state w t1) t2.
Proof.
  revert w. induction t1 as [|[c r w'|s] t1 IH]; intros w; cbn; [reflexivity| |apply IH].
  rewrite IH. reflexivity.
Qed.

Lemma last_state_app (w : W) (t1 t2 : list (Event W)) :
  last_state w (t1 ++ t2) = last_state (last_state w t1) t2.
Proof.
  revert w. induction t1 as [|[c r w'|s] t1 IH]; intros w; cbn; auto.
Qed.

Lemma chained_ret {A} (a : A) (w : W) : chained ext w (ret a w).
Proof. split; [constructor|reflexivity]. Qed.

Lemma chained_out_of_fuel {A} (w : W) : chained ext w (@out_of_fuel W A w).
Proof. split; [constructor|reflexivity]. Qed.

Lemma chained_print (s : string) (w : W) : chained ext w (print s w).
Proof. split; [constructor|reflexivity]. Qed.

Lemma chained_test (t : Val -> option bool) (v : Val) (w : W) :
  chained ext w (test t v w).
Proof. rewrite test_run. split; [constructor|reflexivity]. Qed.

Lemma chained_call (c : Call) (w : W) : chained ext w (call ext c w).
Proof.
  rewrite call_run. split; crunch; [|reflexivity].
  constructor; [reflexivity|constructor].
Qed.

Lemma chained_bind {A B} (m : M W A) (k : A -> M W B) (w : W) :
  chained ext w (m w) ->
  (forall a w', chained ext w' (k a w')) ->
  chained ext w (bind m k w).
Proof.
  intros [Hs Hf] Hk. rewrite bind_run.
  destruct (outcome (m w)) as [a|e|]; [|split; assumption..].
  destruct (Hk a (final (m w))) as [Hs2 Hf2].
  split; crunch.
  - rewrite steps_app, <- Hf. apply Forall_app. split; assumption.
  - rewrite last_state_app, <- Hf. exact Hf2.
Qed.

Lemma chained_run_calls (cs : list Call) (w : W) : chained ext w (run_calls ext cs w).
Proof.
  revert w. induction cs as [|c cs IH]; intros w; [apply chained_ret|].
  cbn [run_calls]. apply chained_bind; [apply chained_call|]. intros _ w'. apply IH.
Qed.

Lemma chained_while (c : M W bool) (b : M W unit) (fuel : nat) (w : W) :
  (forall w, chained ext w (c w)) ->
  (forall w, chained ext w (b w)) ->
  chained ext w (while fuel c b w).
Proof.
  intros Hc Hb. revert w. induction fuel as [|n IH]; intros w.
  - apply chained_out_of_fuel.
  - cbn [while]. apply chained_bind; [apply Hc|].
    intros [] w'; [|apply chained_ret].
    apply chained_bind; [apply Hb|]. intros _ w''. apply IH.
Qed.

Lemma chained_promote (E : Emulator) (w : W) : chained ext w (promote ext E w).
Proof.
  unfold promote. apply chained_bind; [apply chained_print|].
  intros _ w'. apply (chained_run_calls [_; _; _; _; _; _]).
Qed.

Lemma chained_train (E : Emulator) (auto message : bool) (fuel : nat) (w : W) :
  chained ext w (train ext E auto message fuel w).
Proof.
  unfold train. apply chained_bind; [apply chained_call|]. intros _ w1.
  apply chained_bind.
  - apply chained_while; intros w2.
    + unfold guard. apply chained_bind; [apply chained_call|].
      intros v w3. apply chained_test.
    + unfold round. apply chained_bind; [apply (chained_run_calls [_; _; _; _; _; _; _; _])|].
      intros _ w3. apply chained_bind; [apply chained_call|].
      intros v w4. apply chained_bind; [apply chained_test|].
      intros [] w5; [apply chained_promote|apply chained_ret].
  - intros _ w2. apply chained_bind; [apply chained_call|]. intros fb w3.
    apply chained_bind; [apply chained_test|]. intros final w3'.
    apply chained_bind; [|intros _ w4; apply chained_ret].
    destruct final; [|apply chained_ret].
    unfold final_build. apply chained_bind; [apply chained_print|]. intros _ w4.
    apply chained_bind; [apply chained_call|]. intros n w5.
    apply chained_bind; [apply chained_test|]. intros fold w5'.
    apply chained_bind; [|intros _ w6; apply (chained_run_calls [_; _; _; _; _])].
    destruct fold; [|apply chained_ret].
    apply chained_bind; [apply chained_call|]. intros _ w6. apply chained_ret.
Qed.

(** A relation every call respects holds from the first state of a chained
    trace to its last. *)
Lemma chain_preserves (R : W -> W -> Prop) `{!PreOrder R} (w : W) (tr : list (Event W)) :
  Forall (fun s : W * Call * W => R s.1.1 s.2) (steps w tr) ->
  R w (last_state w tr).
Proof.
  revert w. induction tr as [|[c r w'|s] tr IH]; intros w H; cbn in *.
  - reflexivity.
  - inversion H as [|? ? H1 H2]; subst. cbn in H1.
    transitivity w'; [exact H1|apply IH, H2].
  - apply IH, H.
Qed.
End Chain.

(** ** The partition of the specification under [train] *)

Section Segments.
Context {W : Type}.

Lemma actions_cons_inv (tr : list (Event W)) (a : Action) (l : list Action) :
  actions tr = a :: l ->
  exists e tr', tr = e :: tr' /\ action_of e = a /\ actions tr' = l.
Proof.
  destruct tr as [|e tr']; [discriminate|].
  rewrite actions_cons. intros H. injection H as H1 H2. eauto.
Qed.

Lemma actions_nil_inv (tr : list (Event W)) : actions tr = [] -> tr = [].
Proof. destruct tr; [reflexivity|discriminate]. Qed.

Lemma action_of_do (e : Event W) (c : Call) :
  action_of e = Do c -> exists r w, e = Called c r w.
Proof. destruct e as [c' r w|s]; [|discriminate]. intros [= ->]. eauto. Qed.

Lemma action_of_say (e : Event W) (s : string) : action_of e = Say s -> e = Printed s.
Proof. destruct e as [c' r w|s']; [discriminate|]. intros [= ->]. reflexivity. Qed.
End Segments.

(** Takes a trace whose actions are known apart, event by event. *)
Ltac open_trace H :=
  repeat match type of H with
    | actions ?t = Do _ :: _ =>
        let e := fresh "e" in
        let t' := fresh "t" in
        let He := fresh "He" in
        let r := fresh "r" in
        let w := fresh "w" in
        apply actions_cons_inv in H as (e & t' & -> & He & H);
        apply action_of_do in He as (r & w & ->)
    | actions ?t = Say _ :: _ =>
        let e := fresh "e" in
        let t' := fresh "t" in
        let He := fresh "He" in
        apply actions_cons_inv in H as (e & t' & -> & He & H);
        apply action_of_say in He as ->
    | actions ?t = [] => apply actions_nil_inv in H as ->
    end.

Section Partition.
Import Spec.
Variable closes : bool.
Variable r : Val.

Lemma spec_T_step (c : Call) (w : World) :
  (calls_method Meth.incVinT (Do c) = true ->
   T (plan_call closes r c w).2 = T w ++ V w) /\
  (calls_method Meth.incVinT (Do c) = false -> T (plan_call closes r c w).2 = T w).
Proof.
  destruct c as [f args kw|self m args kw|obj a].
  - split; [discriminate|]. intros _. destruct f; reflexivity.
  - destruct m; (split; [try discriminate|try discriminate]); intros _;
      unfold plan_call;
      repeat match goal with
        | |- context [match ?x with _ => _ end] => destruct x
        end; reflexivity.
  - split; [discriminate|reflexivity].
Qed.

#[local] Instance grows_preorder : PreOrder (fun w w' : World => T w `prefix_of` T w').
Proof.
  split.
  - intros w. reflexivity.
  - intros w1 w2 w3 H1 H2. etransitivity; eassumption.
Qed.

Lemma folded_app (w : World) (t1 t2 : list (Event World)) :
  folded w (t1 ++ t2) = folded w t1 ++ folded (last_state w t1) t2.
Proof. unfold folded. rewrite steps_app. apply omap_app. Qed.

Lemma folded_count (w : World) (tr : list (Event World)) :
  length (folded w tr) = count_of (calls_method Meth.incVinT) (actions tr).
Proof.
  revert w. induction tr as [|[c rp w'|s] tr IH]; intros w; [reflexivity| |apply IH].
  change (Called c rp w' :: tr) with ([Called c rp w'] ++ tr).
  rewrite folded_app, actions_app, count_of_app, length_app, IH.
  f_equal. change (actions [Called c rp w']) with [Do c].
  unfold folded, count_of. cbn.
  destruct (calls_method Meth.incVinT (Do c)); reflexivity.
Qed.

(** The training block along a trace: what it was, then the blocks folded. *)
Lemma T_along (w : World) (tr : list (Event World)) :
  Forall (fun s : World * Call * World => s.2 = (plan_call closes r s.1.2 s.1.1).2)
    (steps w tr) ->
  T (last_state w tr) = T w ++ concat (folded w tr).
Proof.
  revert w. induction tr as [|[c rp w'|s] tr IH]; intros w H; cbn [last_state].
  - rewrite app_nil_r. reflexivity.
  - cbn [steps] in H. inversion H as [|? ? H1 H2]; subst. cbn in H1.
    rewrite (IH w' H2).
    change (Called c rp w' :: tr) with ([Called c rp w'] ++ tr).
    rewrite folded_app. cbn [last_state].
    destruct (spec_T_step c w) as [Hy Hn]. rewrite <- H1 in Hy, Hn.
    unfold folded at 2. cbn.
    destruct (calls_method Meth.incVinT (Do c)).
    + rewrite (Hy eq_refl). cbn. rewrite <- app_assoc. reflexivity.
    + rewrite (Hn eq_refl). reflexivity.
  - apply IH, H.
Qed.

Lemma concat_one (b : Block) : concat [b] = b.
Proof. cbn. apply app_nil_r. Qed.

Lemma chain_segment (w : World) (pre seg post : list (Event World)) :
  Forall (fun s : World * Call * World => s.2 = (plan_call closes r s.1.2 s.1.1).2)
    (steps w (pre ++ seg ++ post)) ->
  Forall (fun s : World * Call * World => s.2 = (plan_call closes r s.1.2 s.1.1).2)
    (steps (last_state w pre) seg).
Proof.
  rewrite !steps_app. intros H.
  apply Forall_app in H as [_ H]. apply Forall_app in H as [H _]. exact H.
Qed.

(** C3.  Spec-modelled.  A run of [train] over the partition of the
    specification is made of the rounds, promotions and final build of the
    source: its actions are those of [train_actions], so that every yes of
    [check_still_training] is followed by [incVinT], [next_Vset] and
    [choose_new_V], and the final build folds exactly when [noV != 0].  The
    training block changes only at the calls of [incVinT], each of which
    appends the block of the validation state: the block at the end is the
    block at the start followed by the blocks folded, in order, so nothing
    is ever taken out of it.  Across each promotion, and across a final
    build that folds, the old training size plus the old validation size is
    the new training size; a final build that does not fold leaves the block
    alone.  A run that returns has folded once per promotion, and once more
    in a final build that found [noV != 0]. *)
Theorem training_block_grows (E : Emulator) (auto message : bool)
    (fuel : nat) (w : World) :
  let x := train (plan_call closes r) E auto message fuel w in
  (exists rest : list bool,
     follows x (train_actions E message auto (check_replies (trace x) ++ rest)
                  (final_choice (trace x)))) /\
  Forall (fun s : World * Call * World =>
            (calls_method Meth.incVinT (Do s.1.2) = true ->
             T s.2 = T s.1.1 ++ V s.1.1 /\
             length (T s.1.1) + length (V s.1.1) = length (T s.2)) /\
            (calls_method Meth.incVinT (Do s.1.2) = false -> T s.2 = T s.1.1))
    (steps w (trace x)) /\
  T (final x) = T w ++ concat (folded w (trace x)) /\
  T w `prefix_of` T (final x) /\
  (forall pre seg post,
     trace x = pre ++ seg ++ post ->
     actions seg = promote_actions E ->
     T (last_state w (pre ++ seg)) = T (last_state w pre) ++ V (last_state w pre) /\
     length (T (last_state w pre)) + length (V (last_state w pre)) =
     length (T (last_state w (pre ++ seg)))) /\
  (forall pre seg post fold,
     trace x = pre ++ seg ++ post ->
     actions seg = final_actions E message fold ->
     T (last_state w (pre ++ seg)) =
     if fold then T (last_state w pre) ++ V (last_state w pre)
     else T (last_state w pre)) /\
  (forall a, outcome x = Ok a ->
     length (folded w (trace x)) =
     length (List.filter id (check_replies (trace x))) +
     match final_choice (trace x) with Some true => 1 | _ => 0 end).
Proof.
  cbn zeta.
  destruct (chained_train (plan_call closes r) E auto message fuel w) as [Hs Hf].
  destruct (train_run (plan_call closes r) E message auto fuel w)
    as (rest & Hfollows & Hok).
  cbn zeta in Hfollows, Hok.
  set (x := train (plan_call closes r) E auto message fuel w) in *.
  split; [exists rest; exact Hfollows|].
  assert (Hsteps : Forall (fun s : World * Call * World =>
            (calls_method Meth.incVinT (Do s.1.2) = true ->
             T s.2 = T s.1.1 ++ V s.1.1 /\
             length (T s.1.1) + length (V s.1.1) = length (T s.2)) /\
            (calls_method Meth.incVinT (Do s.1.2) = false -> T s.2 = T s.1.1))
    (steps w (trace x))).
  { eapply Forall_impl; [exact Hs|].
    intros [[w1 c] w2] Hw; cbn in *. subst w2.
    destruct (spec_T_step c w1) as [H1 H2].
    split; [|exact H2].
    intros Hc. rewrite (H1 Hc), length_app. split; reflexivity. }
  split; [exact Hsteps|].
  assert (Hacc : T (final x) = T w ++ concat (folded w (trace x)))
    by (rewrite Hf; apply T_along, Hs).
  split; [exact Hacc|].
  split; [rewrite Hacc; apply prefix_app_r; reflexivity|].
  split; [|split].
  - intros pre seg post Htr Hseg. rewrite Htr in Hs.
    pose proof (chain_segment w pre seg post Hs) as Hc.
    rewrite last_state_app, (T_along _ seg Hc).
    assert (Hfold : folded (last_state w pre) seg = [V (last_state w pre)]).
    { unfold promote_actions in Hseg. open_trace Hseg. reflexivity. }
    rewrite Hfold, concat_one, length_app.
    split; reflexivity.
  - intros pre seg post fold Htr Hseg. rewrite Htr in Hs.
    pose proof (chain_segment w pre seg post Hs) as Hc.
    rewrite last_state_app, (T_along _ seg Hc).
    unfold final_actions in Hseg.
    destruct fold; cbn [app] in Hseg; open_trace Hseg.
    + cbn [steps] in Hc. inversion Hc as [|? ? H1 _]; subst. cbn in H1. subst.
      apply (f_equal (app _)), concat_one.
    + apply app_nil_r.
  - intros a Ha. destruct (Hok a Ha) as (-> & _).
    destruct Hfollows as [_ Heq]. rewrite app_nil_r in Heq.
    rewrite folded_count, (Heq a Ha), count_of_train.
    destruct (final_choice (trace x)) as [[]|]; vm_compute count_of; lia.
Qed.
End Partition.

(** ** Runs whose calls all return *)

Section Returning.
Context {W : Type}.
Variable ext : Call -> W -> Reply * W.




Variable E : Emulator.
Variable message : bool.

(** What a round answers to "still training?". *)
Lemma round_answer (w : W) (v : Val) (w' : W) (b : bool) :
  outcome (validate ext E message w) = Ok tt ->
  ext (still E) (final (validate ext E message w)) = (Returns v, w') ->
  truth v = Some b ->
  check_replies (trace (round ext E message w)) = [b] /\
  outcome (round ext E message w) =
    outcome ((if b then promote ext E else ret tt) w') /\
  final (round ext E message w) =
    final ((if b then promote ext E else ret tt) w').
Proof.
  intros Hv Hs Ht. unfold round. rewrite bind_run, Hv, bind_run, call_run.
  fold (still E). rewrite Hs. crunch. rewrite !test_bind, Ht.
  split; [|split; reflexivity].
  unfold check_replies. rewrite !answers_app.
  rewrite (quiet (calls_method Meth.check_still_training) truthy _ _
             (validate_follows ext E message w) ltac:(repeat constructor)).
  change (answers _ truthy [Called _ (Returns v) w']) with [truthy v].
  assert (truthy v = b) as -> by (unfold truthy; rewrite Ht; reflexivity).
  destruct b.
  - rewrite (quiet (calls_method Meth.check_still_training) truthy _ _
               (promote_follows ext E w') ltac:(repeat constructor)).
    reflexivity.
  - reflexivity.
Qed.
End Returning.

(** ** Rounds over the partition plan *)

Section PlanRounds.
Import Spec.
Variable closes : bool.
Variable r : Val.
Variable E : Emulator.
Variable message : bool.




End PlanRounds.

Section PlanLoops.
Import Spec.
Variable r : Val.
Variable E : Emulator.
Variable message : bool.


End PlanLoops.

(** ** [plot] *)

Section Plot.
Context {W : Type}.
Variable ext : Call -> W -> Reply * W.
Variable E : Emulator.

Lemma lift_run {A} (o : Outcome A) (w : W) : lift o w = (o, w, []).
Proof. reflexivity. Qed.

Lemma item_run {A} (l : list A) (i : nat) (w : W) :
  item l i w = (match l !! i with Some x => Ok x | None => Err IndexError end, w, []).
Proof. unfold item. destruct (l !! i); reflexivity. Qed.

Lemma tame_ret {A} P (a : A) (w : W) : tame ext P w (ret a w).
Proof. split; [constructor|]. split; [discriminate|apply chained_ret]. Qed.

Lemma tame_raise {A} P (e : Exn) (w : W) : tame ext P w (@raise W A e w).
Proof. split; [constructor|]. split; [discriminate|]. split; [constructor|reflexivity]. Qed.

Lemma tame_lift {A} P (o : Outcome A) (w : W) :
  o <> OutOfFuel -> tame ext P w (lift o w).
Proof. intros H. split; [constructor|]. split; [exact H|]. split; [constructor|reflexivity]. Qed.

Lemma tame_print P (s : string) (w : W) :
  P (Say s) = true -> tame ext P w (print s w).
Proof.
  intros H. split; [repeat constructor; exact H|].
  split; [discriminate|apply chained_print].
Qed.

Lemma tame_call P (c : Call) (w : W) :
  P (Do c) = true -> tame ext P w (call ext c w).
Proof.
  intros H. split; [rewrite call_actions; repeat constructor; exact H|].
  split; [apply call_not_out_of_fuel|apply chained_call].
Qed.

Lemma tame_item {A} P (l : list A) (i : nat) (w : W) : tame ext P w (item l i w).
Proof. unfold item. destruct (l !! i); [apply tame_ret|apply tame_raise]. Qed.

Lemma tame_bind {A B} P (m : M W A) (k : A -> M W B) (w : W) :
  tame ext P w (m w) ->
  (forall a w', tame ext P w' (k a w')) ->
  tame ext P w (bind m k w).
Proof.
  intros (Ha & Hf & Hc) Hk.
  split; [|split; [|apply chained_bind; [exact Hc|intros a w'; apply Hk]]];
    rewrite bind_run; destruct (outcome (m w)) as [a|e|] eqn:Ho; crunch;
    try assumption; try discriminate; try (destruct (Hf eq_refl)).
  - rewrite actions_app. apply Forall_app. split; [exact Ha|apply Hk].
  - apply Hk.
Qed.

Lemma tame_weaken {A} (P Q : Action -> bool) (w : W) (x : Outcome A * W * list (Event W)) :
  (forall a, P a = true -> Q a = true) -> tame ext P w x -> tame ext Q w x.
Proof.
  intros H (Ha & Hf & Hc). split; [|split; assumption].
  eapply Forall_impl; [exact Ha|]. exact H.
Qed.

Lemma str_tame (v : Val) (w : W) : tame ext label_action w (str ext v w).
Proof.
  destruct v as [|[]|n|q|s|k xs|id]; try apply tame_ret;
    (unfold str; apply tame_bind; [apply tame_call; reflexivity|];
     intros [] w'; first [apply tame_ret|apply tame_raise]).
Qed.

Lemma labels_tame (dim : Z) (plot_dims : list Z) (customLabels : list string) (w : W) :
  tame ext label_action w (labels ext E dim plot_dims customLabels w).
Proof.
  unfold labels. destruct (is_one_d dim plot_dims), customLabels as [|l0 rest].
  - apply tame_bind; [apply tame_item|]. intros d0 w1.
    apply tame_bind; [apply tame_call; reflexivity|]. intros out w2.
    apply tame_bind; [apply str_tame|]. intros s w3. apply tame_ret.
  - apply tame_bind; [apply tame_item|]. intros xl w1.
    apply tame_bind; [apply tame_item|]. intros yl w2. apply tame_ret.
  - apply tame_bind; [apply tame_item|]. intros d0 w1.
    destruct (dim =? 1)%Z; [apply tame_ret|].
    apply tame_bind; [apply tame_item|]. intros d1 w2. apply tame_ret.
  - apply tame_bind; [apply tame_item|]. intros xl w1.
    apply tame_bind; [apply tame_item|]. intros yl w2. apply tame_ret.
Qed.

(** With custom labels the two of them are read, whatever the branch. *)
Lemma labels_custom (dim : Z) (plot_dims : list Z) (l0 : string) (rest : list string)
    (w : W) :
  labels ext E dim plot_dims (l0 :: rest) w =
  (match rest with
   | [] => Err IndexError
   | l1 :: _ => Ok (l0, l1)
   end, w, []).
Proof.
  unfold labels. destruct (is_one_d dim plot_dims), rest; reflexivity.
Qed.

Lemma returned_app (f : Fn.t) (t1 t2 : list (Event W)) :
  returned f (t1 ++ t2) = returned f t1 ++ returned f t2.
Proof. apply omap_app. Qed.

(** A trace without a call of [f] holds no result of [f]. *)
Lemma returned_none (f : Fn.t) (tr : list (Event W)) :
  Forall (fun a => calls_function f a = false) (actions tr) ->
  returned f tr = [].
Proof.
  induction tr as [|e tr IH]; intros H; [reflexivity|].
  inversion H as [|a l Ha Hl]; subst.
  change (e :: tr) with ([e] ++ tr). rewrite returned_app, (IH Hl), app_nil_r.
  destruct e as [[g args kw|self m args kw|obj a] [v|x] w'|s]; try reflexivity.
  unfold returned. cbn. unfold calls_function in Ha. cbn in Ha.
  destruct (decide (f = g)) as [->|Hne]; [|reflexivity].
  rewrite bool_decide_eq_false in Ha. destruct (Ha eq_refl).
Qed.

Variables (plot_dims fixed_dims : list Z) (fixed_vals : list Q) (mean_or_var : string).

Lemma grid_run (dim : Z) (one_d : bool) (xl yl : string) (w : W) :
  let x := predict_on_grid ext E dim one_d xl yl plot_dims fixed_dims fixed_vals
             mean_or_var w in
  exists grid predict post',
    follows x (grid_actions E plot_dims fixed_dims fixed_vals mean_or_var
                 dim one_d xl yl grid predict post') /\
    (forall a, outcome x = Ok a ->
       a = VNone /\
       returned Fn.make_inputs (trace x) = [grid] /\
       returned Fn.Data (trace x) = [predict] /\
       returned Fn.Posterior (trace x) = [post']).
Proof.
  cbn zeta. unfold predict_on_grid, grid_actions.
  rewrite bind_run, call_run.
  destruct (ext _ w) as [[grid|e] w1]; crunch;
    [|exists VNone, VNone, VNone;
      split; [split; [apply (prefix_cons (Do _)), prefix_nil|discriminate]|discriminate]].
  rewrite bind_run, call_run.
  destruct (ext _ w1) as [[predict|e] w2]; crunch;
    [|exists grid, VNone, VNone;
      split; [split; [do 2 apply (prefix_cons (Do _)); apply prefix_nil|discriminate]
             |discriminate]].
  rewrite bind_run, call_run.
  destruct (ext _ w2) as [[post'|e] w3]; crunch;
    [|exists grid, predict, VNone;
      split; [split; [do 3 apply (prefix_cons (Do _)); apply prefix_nil|discriminate]
             |discriminate]].
  rewrite bind_run, call_run.
  destruct (ext _ w3) as [[v|e] w4]; crunch;
    exists grid, predict, post'.
  - split; [split; [reflexivity|intros; reflexivity]|].
    intros a Ha. injection Ha as <-. repeat split; reflexivity.
  - split; [split; [reflexivity|discriminate]|discriminate].
Qed.

Lemma label_is_no_function (f : Fn.t) (a : Action) :
  label_action a = true -> calls_function f a = false.
Proof.
  destruct a as [[g args kw|self m args kw|obj x]|s]; try reflexivity.
  discriminate.
Qed.

Lemma plot_run (customLabels : list string) (w : W) :
  let x := plot ext E plot_dims fixed_dims fixed_vals mean_or_var customLabels w in
  exists (dim : Z) (lab : list Action) (xl yl : string) (grid predict post' : Val),
    follows x (plot_actions E plot_dims fixed_dims fixed_vals mean_or_var
                 lab dim (is_one_d dim plot_dims) xl yl grid predict post') /\
    Forall (fun a => label_action a = true) lab /\
    (forall a, outcome x = Ok a ->
       a = VNone /\
       returned Fn.make_inputs (trace x) = [grid] /\
       returned Fn.Data (trace x) = [predict] /\
       returned Fn.Posterior (trace x) = [post']) /\
    (forall v w' s rest,
       trace x = Called (read_inputs E) (Returns v) w' :: Printed s :: rest ->
       first_size v = Ok dim).
Proof.
  cbn zeta. unfold plot, plot_actions.
  rewrite bind_run, call_run. fold (read_inputs E).
  destruct (ext (read_inputs E) w) as [[v|e] w1]; crunch.
  2:{ exists 0%Z, [], "", "", VNone, VNone, VNone.
      split; [split; [apply (prefix_cons (Do _)), prefix_nil|discriminate]|].
      split; [constructor|]. split; [discriminate|]. intros ? ? ? ? H. discriminate H. }
  rewrite bind_run, lift_run. crunch.
  destruct (first_size v) as [dim|e|] eqn:Hdim;
    [|exists 0%Z, [], "", "", VNone, VNone, VNone;
      (split; [split; [apply (prefix_cons (Do _)), prefix_nil|discriminate]|]);
      (split; [constructor|]); (split; [discriminate|]);
      intros ? ? ? ? H; discriminate H..].
  rewrite bind_run, print_run. crunch.
  rewrite bind_run.
  destruct (labels_tame dim plot_dims customLabels w1) as (Hlab & Hfuel & _).
  set (lx := labels ext E dim plot_dims customLabels w1) in *.
  destruct (outcome lx) as [[xl yl]|e|] eqn:Hl; [| |destruct (Hfuel eq_refl)].
  - destruct (grid_run dim (is_one_d dim plot_dims) xl yl (final lx))
      as (grid & predict & post' & [Hp Hf] & Hok).
    cbn zeta in *.
    set (gx := predict_on_grid ext E dim (is_one_d dim plot_dims) xl yl plot_dims
                 fixed_dims fixed_vals mean_or_var (final lx)) in *.
    exists dim, (actions (trace lx)), xl, yl, grid, predict, post'.
    split; [split; crunch|].
    + norm_actions. do 2 apply prefix_cons. apply prefix_app, Hp.
    + intros a Ha. norm_actions. rewrite (Hf a Ha). reflexivity.
    + split; [exact Hlab|]. split.
      * crunch. intros a Ha. destruct (Hok a Ha) as (-> & H1 & H2 & H3).
        split; [reflexivity|].
        rewrite !returned_app, H1, H2, H3.
        rewrite !(returned_none _ (trace lx))
          by (eapply Forall_impl; [exact Hlab|]; apply label_is_no_function).
        repeat split; reflexivity.
      * crunch. intros v' w' s rest H. cbn [app] in H.
        injection H as <- _ _ _. exact Hdim.
  - exists dim, (actions (trace lx)), "", "", VNone, VNone, VNone.
    split; [split; crunch; [|discriminate]|].
    + norm_actions. do 2 apply prefix_cons. apply prefix_app_r. reflexivity.
    + split; [exact Hlab|]. split; [discriminate|].
      crunch. intros v' w' s rest H. cbn [app] in H.
      injection H as <- _ _ _. exact Hdim.
Qed.

Lemma plot_tame (customLabels : list string) (w : W) :
  tame ext plot_may w
    (plot ext E plot_dims fixed_dims fixed_vals mean_or_var customLabels w).
Proof.
  unfold plot. apply tame_bind; [apply tame_call; reflexivity|]. intros v w1.
  apply tame_bind.
  { apply tame_lift. unfold first_size.
    repeat match goal with
      | |- context [match ?x with _ => _ end] => destruct x
      end; discriminate. }
  intros dim w2. apply tame_bind; [apply tame_print; reflexivity|]. intros _ w3.
  apply tame_bind.
  { eapply tame_weaken; [|apply labels_tame].
    intros [[g args kw|self m args kw|obj x]|s]; try reflexivity; try discriminate.
    destruct m; try discriminate. reflexivity. }
  intros [xl yl] w4. unfold predict_on_grid.
  do 4 (apply tame_bind; [apply tame_call; reflexivity|]; intros ? ?).
  apply tame_ret.
Qed.

Lemma steps_calls (P : Action -> bool) (w : W) (tr : list (Event W)) :
  Forall (fun a => P a = true) (actions tr) ->
  Forall (fun s : W * Call * W => P (Do s.1.2) = true) (steps w tr).
Proof.
  revert w. induction tr as [|[c r w'|s] tr IH]; intros w H; cbn.
  - constructor.
  - inversion H; subst. constructor; [assumption|apply IH; assumption].
  - inversion H; subst. apply IH; assumption.
Qed.

(** What the actions of a tame run preserve, the run preserves. *)
Lemma tame_frame {A X} (P : Action -> bool) (obs : W -> X) (w : W)
    (x : Outcome A * W * list (Event W)) :
  (forall c w, P (Do c) = true -> obs (ext c w).2 = obs w) ->
  tame ext P w x -> obs (final x) = obs w.
Proof.
  intros Hobs (Ha & _ & Hs & ->).
  assert (HR : PreOrder (fun a b : W => obs a = obs b)).
  { split; [intros a; reflexivity|intros a b c H1 H2; congruence]. }
  symmetry. apply (chain_preserves (fun a b : W => obs a = obs b)).
  apply (steps_calls P w) in Ha.
  rewrite Forall_forall in *. intros [[w1 c] w2] Hin.
  specialize (Ha _ Hin). specialize (Hs _ Hin). cbn in *.
  rewrite Hs. symmetry. apply Hobs, Ha.
Qed.
End Plot.

(** ** When [train] ends *)




Section Variant.
Context {W : Type}.
Variable ext : Call -> W -> Reply * W.
Variable E : Emulator.
Variable message : bool.



Variable Inv : W -> Prop.
Variable mu : W -> nat.
Hypothesis Hround :
  forall w v w1,
    Inv w -> ext (doing E) w = (Returns v, w1) -> truthy v = true ->
    outcome (round ext E message w1) = Ok tt ->
    Inv (final (round ext E message w1)) /\
    mu (final (round ext E message w1)) < mu w.


End Variant.



Lemma np_size_row (row : list Q) :
  np_size (VSeq NdArray (map VFloat row)) = Z.of_nat (length row).
Proof.
  cbn. induction row as [|q row IH]; [reflexivity|].
  cbn [map length]. rewrite IH. change (np_size (VFloat q)) with 1%Z. lia.
Qed.

Section PlotProperties.
Context {W : Type}.
Variable ext : Call -> W -> Reply * W.
Variable E : Emulator.
Variables (plot_dims fixed_dims : list Z) (fixed_vals : list Q) (mean_or_var : string).

(** C8.  [plot] is made of attribute reads, messages, [str] of a value
    and calls of [make_inputs], [Data], [Posterior] and [plotting]: it calls
    no method of a component of the emulator and assigns nothing.  So
    whatever those calls leave alone, [plot] leaves alone: its final state
    shows the same training, validation and posterior states, partition
    and hyperparameters as its first.  A run that returns asks
    [make_inputs] for the grid over [plot_dims], [fixed_dims] and
    [fixed_vals], builds a new [Data] on that grid, and a new [Posterior]
    on that [Data] and the training state of the emulator, which it hands
    to [plotting]. *)
Theorem plot_leaves_emulator {X} (obs : W -> X) (customLabels : list string) (w : W) :
  (forall c w, plot_may (Do c) = true -> obs (ext c w).2 = obs w) ->
  let x := plot ext E plot_dims fixed_dims fixed_vals mean_or_var customLabels w in
  Forall (fun a => plot_may a = true) (actions (trace x)) /\
  obs (final x) = obs w /\
  (forall a, outcome x = Ok a ->
     exists (dim : Z) (lab : list Action) (xl yl : string) (grid predict post' : Val),
       Forall (fun a => label_action a = true) lab /\
       actions (trace x) =
         Do (GetAttr E.(training) Attr.inputs) ::
         Say (nl +:+ "***Generating plot***") ::
         lab ++
         [Do (grid_call plot_dims fixed_dims fixed_vals dim (is_one_d dim plot_dims));
          Do (CallFn Fn.Data
                [grid; VNone; E.(basis); E.(par); E.(beliefs); E.(K)] []);
          Do (CallFn Fn.Posterior
                [predict; E.(training); E.(par); E.(beliefs); E.(K)] []);
          Do (plotting_call mean_or_var dim post' (is_one_d dim plot_dims) xl yl)] /\
       returned Fn.make_inputs (trace x) = [grid] /\
       returned Fn.Data (trace x) = [predict] /\
       returned Fn.Posterior (trace x) = [post']).
Proof.
  intros Hobs. cbn zeta.
  pose proof (plot_tame ext E plot_dims fixed_dims fixed_vals mean_or_var
                customLabels w) as Ht.
  split; [apply Ht|]. split; [eapply tame_frame; eassumption|].
  intros a Ha.
  destruct (plot_run ext E plot_dims fixed_dims fixed_vals mean_or_var customLabels w)
    as (dim & lab & xl & yl & grid & predict & post' & [_ Hf] & Hlab & Hok & _).
  cbn zeta in *. destruct (Hok a Ha) as (_ & H1 & H2 & H3).
  exists dim, lab, xl, yl, grid, predict, post'.
  split; [exact Hlab|]. split; [apply (Hf a Ha)|]. auto.
Qed.

(** C9.  [pn] is 30, and [plot] has no argument for it.  A run of
    [plot] begins with the read of [E.training.inputs]; the dimension is the
    size of its first item, the length of the first input vector of a
    two-dimensional array.  After its message and the labels, the run calls
    [make_inputs] with that dimension and 30 twice, then [Data] on the grid
    with [None] for outputs, then [Posterior], then [plotting] with the
    dimension and 30 twice again: a run that returns has made exactly these
    calls, [Data] being handed the grid [make_inputs] returned; a run that
    fails has made an initial part of them.  So every call of
    [make_inputs] and of [plotting] carries that dimension and 30 twice,
    and every call of [Data] has [None] for outputs. *)
Theorem plot_resolution_and_dimension (customLabels : list string) (w : W) :
  let x := plot ext E plot_dims fixed_dims fixed_vals mean_or_var customLabels w in
  pn = 30%Z /\
  (exists r w' rest, trace x = Called (GetAttr E.(training) Attr.inputs) r w' :: rest) /\
  (forall (row : list Q) (rows : list Val),
     first_size (VSeq NdArray (VSeq NdArray (map VFloat row) :: rows))
     = Ok (Z.of_nat (length row))) /\
  exists (dim : Z) (lab : list Action) (xl yl : string) (grid predict post' : Val),
    (forall v w' s rest,
       trace x = Called (GetAttr E.(training) Attr.inputs) (Returns v) w' ::
                 Printed s :: rest ->
       first_size v = Ok dim) /\
    Forall (fun a => label_action a = true) lab /\
    follows x
      (Do (GetAttr E.(training) Attr.inputs) ::
       Say (nl +:+ "***Generating plot***") ::
       lab ++
       [Do (CallFn Fn.make_inputs
              [VInt dim; VInt 30; VInt 30;
               VSeq PyList (map VInt plot_dims);
               VSeq PyList (map VInt fixed_dims);
               VSeq PyList (map VFloat fixed_vals);
               VBool (is_one_d dim plot_dims)] []);
        Do (CallFn Fn.Data
              [grid; VNone; E.(basis); E.(par); E.(beliefs); E.(K)] []);
        Do (CallFn Fn.Posterior
              [predict; E.(training); E.(par); E.(beliefs); E.(K)] []);
        Do (CallFn Fn.plotting
              [VInt dim; post'; VInt 30; VInt 30;
               VBool (is_one_d dim plot_dims); VStr mean_or_var]
              [("labels", VSeq PyList [VStr xl; VStr yl])])]) /\
    (forall a, outcome x = Ok a ->
       returned Fn.make_inputs (trace x) = [grid] /\
       returned Fn.Data (trace x) = [predict] /\
       returned Fn.Posterior (trace x) = [post']) /\
    Forall (fun a =>
       (calls_function Fn.make_inputs a = true ->
        a = Do (CallFn Fn.make_inputs
                  [VInt dim; VInt 30; VInt 30;
                   VSeq PyList (map VInt plot_dims);
                   VSeq PyList (map VInt fixed_dims);
                   VSeq PyList (map VFloat fixed_vals);
                   VBool (is_one_d dim plot_dims)] [])) /\
       (calls_function Fn.Data a = true ->
        exists grid,
          a = Do (CallFn Fn.Data
                    [grid; VNone; E.(basis); E.(par); E.(beliefs); E.(K)] [])) /\
       (calls_function Fn.plotting a = true ->
        exists post' xl yl,
          a = Do (CallFn Fn.plotting
                    [VInt dim; post'; VInt 30; VInt 30;
                     VBool (is_one_d dim plot_dims); VStr mean_or_var]
                    [("labels", VSeq PyList [VStr xl; VStr yl])])))
      (actions (trace x)).
Proof.
  cbn zeta. split; [reflexivity|]. split; [|split].
  - unfold plot. rewrite bind_run, call_run.
    destruct (ext _ w) as [[v|e] w1]; crunch; eexists _, _, _; reflexivity.
  - intros row rows. cbn [first_size lookup list_lookup].
    rewrite np_size_row. reflexivity.
  - destruct (plot_run ext E plot_dims fixed_dims fixed_vals mean_or_var customLabels w)
      as (dim & lab & xl & yl & grid & predict & post' & Hfollows & Hlab & Hok & Htie).
    cbn zeta in *. exists dim, lab, xl, yl, grid, predict, post'.
    split; [exact Htie|]. split; [exact Hlab|]. split; [exact Hfollows|].
    split; [intros a Ha; apply (Hok a Ha)|].
    destruct Hfollows as [Hp _].
    eapply Forall_prefix_of; [exact Hp|].
    unfold plot_actions, grid_actions.
    constructor; [repeat split; discriminate|].
    constructor; [repeat split; discriminate|].
    apply Forall_app. split.
    + eapply Forall_impl; [exact Hlab|]. intros a Ha.
      repeat split; intros Hc;
        rewrite (label_is_no_function _ a Ha) in Hc; discriminate Hc.
    + constructor; [repeat split; try discriminate; intros _; reflexivity|].
      constructor;
        [repeat split; try discriminate; intros _; eexists; reflexivity|].
      constructor; [repeat split; discriminate|].
      constructor; [|constructor].
      repeat split; try discriminate. intros _. eexists _, _, _. reflexivity.
Qed.

(** C10.  With one custom label [plot] never returns: once the dimension
    is known and the message printed, the label construction raises
    [IndexError] and nothing else is called.  Both branches read
    [customLabels[0]] and [customLabels[1]] as soon as [customLabels] is
    not empty. *)
Theorem plot_one_custom_label (l : string) (w : W) :
  let x := plot ext E plot_dims fixed_dims fixed_vals mean_or_var [l] w in
  (forall a, outcome x <> Ok a) /\
  (In (Printed (nl +:+ "***Generating plot***")) (trace x) ->
   outcome x = Err IndexError /\
   actions (trace x) =
     [Do (GetAttr E.(training) Attr.inputs); Say (nl +:+ "***Generating plot***")]) /\
  (forall dim l0 rest w',
     labels ext E dim plot_dims (l0 :: rest) w' =
     (match rest with
      | [] => Err IndexError
      | l1 :: _ => Ok (l0, l1)
      end, w', [])).
Proof.
  cbn zeta. split; [|split; [|intros; apply labels_custom]].
  - intros a. unfold plot. rewrite bind_run, call_run.
    destruct (ext _ w) as [[v|e] w1]; crunch; [|discriminate].
    rewrite bind_run, lift_run. crunch.
    destruct (first_size v) as [dim|e|]; [|discriminate..].
    rewrite bind_run, print_run. crunch.
    rewrite bind_run, labels_custom. crunch. discriminate.
  - unfold plot. rewrite bind_run, call_run.
    destruct (ext _ w) as [[v|e] w1]; crunch.
    2:{ intros [H|[]]. discriminate H. }
    rewrite bind_run, lift_run. crunch.
    destruct (first_size v) as [dim|e|]; crunch;
      try (intros [H|[]]; discriminate H).
    rewrite bind_run, print_run. crunch.
    rewrite bind_run, labels_custom. crunch.
    intros _. split; reflexivity.
Qed.
End PlotProperties.

Lemma Spec_plot_frame (r : Val) (c : Call) (w : Spec.World) :
  plot_may (Do c) = true ->
  Spec.partition (Spec.ext r c w).2 = Spec.partition w.
Proof.
  destruct c as [f args kw|self m args kw|obj a]; intros H.
  - destruct f; try discriminate H; reflexivity.
  - destruct m; try discriminate H; reflexivity.
  - reflexivity.
Qed.

Lemma plot_leaves_emulator_witness :
  Spec.partition
    (final (plot (Spec.ext VNone) Spec.emu [0%Z] [1%Z] [1 # 2] "mean" []
              (Spec.sample true)))
  = Spec.partition (Spec.sample true).
Proof.
  apply (plot_leaves_emulator (Spec.ext VNone) Spec.emu [0%Z] [1%Z] [1 # 2] "mean"
           Spec.partition [] (Spec.sample true)).
  intros c w. apply Spec_plot_frame.
Defined.

(** ** [setup] *)

Section Setup.
Context {W : Type}.
Variable ext : Call -> W -> Reply * W.

Lemma raise_run {A} (e : Exn) (w : W) : @raise W A e w = (Err e, w, []).
Proof. reflexivity. Qed.

Ltac step :=
  rewrite bind_run, call_run;
  let v := fresh "v" in
  let e := fresh "e" in
  let w := fresh "w" in
  destruct (ext _ _) as [[v|e] w]; crunch;
  [|let H := fresh in intros ? H; discriminate H].

Ltac pure_step :=
  rewrite bind_run;
  match goal with
  | |- context [star ?v ?w] =>
      destruct v as [| | | |?s|?k ?xs|]; cbn [star];
      rewrite ?ret_run, ?raise_run; crunch;
      try (let H := fresh in intros ? H; discriminate H)
  | |- context [unpack2 ?v ?w] =>
      destruct v as [| | | |?s|?k [|?a [|?b [|? ?]]]|]; cbn [unpack2];
      try (destruct (list_ascii_of_string _) as [|? [|? [|? ?]]]);
      rewrite ?ret_run, ?raise_run; crunch;
      try (let H := fresh in intros ? H; discriminate H)
  end.

(** C4, amended.  A call of [setup] that returns has made one
    [Hyperparams] object and one kernel, two [Data], one [Posterior], one
    [Optimize] and one [Emulator], those the returned emulator holds, and it
    ends with the five constructor calls below: [par] is handed to both
    [Data], to [Posterior], to [Optimize] and to [Emulator]; [K] is handed
    to both [Data], to [Posterior] and to [Emulator]; [Optimize] is not
    handed [K] but the training [Data], which was built from [K]. *)
Theorem setup_shares_par_and_K (config_file : string) (datashuffle scaleinputs : bool) (w : W) :
  let x := setup ext config_file datashuffle scaleinputs w in
  forall E, outcome x = Ok E ->
    returned Fn.Hyperparams (trace x) = [E.(par)] /\
    returned Fn.build_kernel (trace x) = [E.(K)] /\
    returned Fn.Data (trace x) = [E.(training); E.(validation)] /\
    returned Fn.Posterior (trace x) = [E.(post)] /\
    returned Fn.Optimize (trace x) = [E.(opt_T)] /\
    returned Fn.Emulator (trace x) = [E.(this)] /\
    exists (head : list Action) (x_T y_T x_V y_V : Val),
      Forall (fun a => function_of a <> Some Fn.Data /\
                       function_of a <> Some Fn.Posterior /\
                       function_of a <> Some Fn.Optimize /\
                       function_of a <> Some Fn.Emulator) head /\
      actions (trace x) =
        head ++
        [Do (CallFn Fn.Data
               [x_T; y_T; E.(basis); E.(par); E.(beliefs); E.(K)] []);
         Do (CallFn Fn.Data
               [x_V; y_V; E.(basis); E.(par); E.(beliefs); E.(K)] []);
         Do (CallFn Fn.Posterior
               [E.(validation); E.(training); E.(par); E.(beliefs); E.(K)] []);
         Do (CallFn Fn.Optimize
               [E.(training); E.(basis); E.(par); E.(beliefs); E.(config)] []);
         Do (CallFn Fn.Emulator
               [E.(config); E.(beliefs); E.(par); E.(basis); E.(tv_conf);
                E.(all_data); E.(training); E.(validation); E.(post);
                E.(opt_T); E.(K)] [])].
Proof.
  cbn zeta. unfold setup.
  do 6 step. pure_step.
  all: do 7 step.
  all: pure_step.
  all: step.
  all: pure_step.
  all: do 5 step.
  all: rewrite ret_run; crunch.
  all: intros E HE; injection HE as <-; cbn [par K training validation post opt_T this
                                               basis beliefs config tv_conf all_data].
  all: do 6 (split; [reflexivity|]).
  all: match goal with
       | |- context [actions ?t = _] => exists (take 14 (actions t))
       end.
  all: eexists _, _, _, _; split;
         [repeat (constructor; [repeat split; discriminate|]); constructor
         |reflexivity].
Qed.
End Setup.

Example setup_on_sample :
  outcome (setup (Spec.ext VNone) "emulator.conf" true true (Spec.blank true))
  = Ok Spec.emu /\
  final (setup (Spec.ext VNone) "emulator.conf" true true (Spec.blank true))
  = Spec.sample true.
Proof. split; vm_compute; reflexivity. Qed.

Lemma setup_shares_par_and_K_witness :
  returned Fn.Hyperparams
    (trace (setup (Spec.ext VNone) "emulator.conf" true true (Spec.blank true)))
  = [VObj 3] /\
  returned Fn.build_kernel
    (trace (setup (Spec.ext VNone) "emulator.conf" true true (Spec.blank true)))
  = [VObj 7].
Proof.
  destruct (setup_shares_par_and_K (Spec.ext VNone) "emulator.conf" true true
              (Spec.blank true) Spec.emu ltac:(vm_compute; reflexivity))
    as (H1 & H2 & _).
  split; [exact H1|exact H2].
Defined.

(** C4, as stated, fails: [Optimize] is not handed the kernel. *)
Lemma setup_keeps_K_from_Optimize :
  ~ shares_par_and_K
      (setup (Spec.ext VNone) "emulator.conf" true true (Spec.blank true)).
Proof.
  intros H.
  destruct (H Spec.emu ltac:(vm_compute; reflexivity)) as (_ & _ & Hf).
  destruct (Hf Fn.Optimize ltac:(cbn; tauto)) as [_ HK].
  unfold handed in HK. rewrite Forall_forall in HK.
  specialize (HK (Do (CallFn Fn.Optimize
                        [VObj 9; VObj 4; VObj 3; VObj 2; VObj 1] []))).
  assert (Hin : Do (CallFn Fn.Optimize [VObj 9; VObj 4; VObj 3; VObj 2; VObj 1] [])
                ∈ actions (trace (setup (Spec.ext VNone) "emulator.conf" true true
                                    (Spec.blank true)))).
  { vm_compute. repeat first [apply list_elem_of_here|apply list_elem_of_further]. }
  specialize (HK Hin eq_refl). cbn in HK.
  repeat destruct HK as [HK|HK]; try discriminate HK. exact HK.
Qed.

(** ** The sample dataset *)

(** Three rounds, two promotions, and a final build that folds the last
    block: the training block goes from 3 points to 5, 6 and 8. *)
Example sample_rounds :
  outcome (Spec.sample_run true) = Ok VNone /\
  check_replies (trace (Spec.sample_run true)) = [true; true; false] /\
  final_choice (trace (Spec.sample_run true)) = Some true /\
  map (fun s : Spec.World * Call * Spec.World => length (Spec.T s.2))
    (filter (fun s : Spec.World * Call * Spec.World =>
               calls_method Meth.incVinT (Do s.1.2) = true)
       (steps (Spec.sample true) (trace (Spec.sample_run true))))
  = [5; 6; 8].
Proof. repeat split; vm_compute; reflexivity. Qed.

(** Without the final build the last block stays out of the training block. *)
Example sample_without_final_build :
  outcome (Spec.sample_run false) = Ok VNone /\
  final_choice (trace (Spec.sample_run false)) = None /\
  length (Spec.T (final (Spec.sample_run false))) = 6.
Proof. repeat split; vm_compute; reflexivity. Qed.

(** One custom label: [IndexError] right after the message. *)
Example sample_plot_one_label :
  outcome (plot (Spec.ext VNone) Spec.emu [0%Z] [1%Z] [1 # 2] "mean" ["x"]
             (Spec.sample true)) = Err IndexError /\
  actions (trace (plot (Spec.ext VNone) Spec.emu [0%Z] [1%Z] [1 # 2] "mean" ["x"]
                    (Spec.sample true)))
  = [Do (GetAttr (VObj 9) Attr.inputs); Say (nl +:+ "***Generating plot***")].
Proof. split; vm_compute; reflexivity. Qed.

(** Default labels of a one-dimensional plot over two inputs. *)
Example sample_plot_default_labels :
  last (actions (trace (plot (Spec.ext VNone) Spec.emu [0%Z] [1%Z] [1 # 2] "mean" []
                          (Spec.sample true))))
  = Some (Do (CallFn Fn.plotting
                [VInt 2; VObj 16; VInt 30; VInt 30; VBool true; VStr "mean"]
                [("labels", VSeq PyList [VStr "input 0"; VStr "output 0"])])).
Proof. vm_compute; reflexivity. Qed.

(** * More of [train], [setup] and [plot] *)

(** ** How runs end *)

Section Stops.
Context {W : Type}.
Variable ext : Call -> W -> Reply * W.
Variable own : Exn -> Prop.

Lemma stops_ret {A} (a : A) (w : W) : stops own (ret a w).
Proof. unfold stops. rewrite ret_run. crunch. constructor. Qed.

Lemma stops_print (s : string) (w : W) : stops own (print s w).
Proof. unfold stops. rewrite print_run. crunch. repeat constructor. Qed.

Lemma stops_raise {A} (e : Exn) (w : W) : own e -> stops own (@raise W A e w).
Proof. intros H. unfold stops. rewrite raise_run. crunch. right. split; [exact H|constructor]. Qed.

Lemma stops_lift {A} (o : Outcome A) (w : W) :
  (forall e, o = Err e -> own e) -> stops own (lift o w).
Proof.
  intros H. unfold stops. rewrite lift_run. crunch.
  destruct o as [a|e|]; [constructor| |constructor].
  right. split; [apply H; reflexivity|constructor].
Qed.

Lemma stops_call (c : Call) (w : W) : stops own (call ext c w).
Proof.
  rewrite call_run. unfold stops. crunch.
  destruct (ext c w) as [[v|e] w']; cbn [fst snd].
  - repeat constructor.
  - left. exists [], c, w'. repeat split. constructor.
Qed.

Lemma stops_bind {A B} (m : M W A) (k : A -> M W B) (w : W) :
  stops own (m w) -> (forall a w', stops own (k a w')) -> stops own (bind m k w).
Proof.
  intros Hm Hk. rewrite bind_run. unfold stops in Hm.
  destruct (outcome (m w)) as [a|e|] eqn:Ho; [|exact Hm..].
  specialize (Hk a (final (m w))). unfold stops in *. crunch.
  destruct (outcome (k a (final (m w)))) as [b|e|].
  - apply Forall_app. split; assumption.
  - destruct Hk as [(tr & c & w' & Ht & Hr & Hf)|[Ho' Hr]].
    + left. exists (trace (m w) ++ tr), c, w'.
      rewrite Ht, app_assoc. split; [reflexivity|].
      split; [apply Forall_app; split; assumption|exact Hf].
    + right. split; [exact Ho'|apply Forall_app; split; assumption].
  - apply Forall_app. split; assumption.
Qed.

Lemma stops_item {A} (l : list A) (i : nat) (w : W) :
  own IndexError -> stops own (item l i w).
Proof. intros H. unfold item. destruct (l !! i); [apply stops_ret|apply stops_raise, H]. Qed.

End Stops.

Section Fails.
Context {W : Type}.
Variable ext : Call -> W -> Reply * W.
Variable cause : Call -> Val -> Exn -> Prop.

Lemma fails_ret {A} (a : A) (w : W) : fails_at cause (ret a w).
Proof. unfold fails_at. rewrite ret_run. crunch. constructor. Qed.

Lemma fails_print (s : string) (w : W) : fails_at cause (print s w).
Proof. unfold fails_at. rewrite print_run. crunch. repeat constructor. Qed.

Lemma fails_call (c : Call) (w : W) : fails_at cause (call ext c w).
Proof.
  rewrite call_run. unfold fails_at. crunch.
  destruct (ext c w) as [[v|e] w']; cbn [fst snd].
  - repeat constructor.
  - exists [], c, (Raises e), w'. repeat split; [constructor|left; reflexivity].
Qed.

(** Events that returned may come before. *)
Lemma fails_after {A} (t0 : list (Event W)) (x : Outcome A * W * list (Event W)) :
  Forall event_returned t0 -> fails_at cause x ->
  fails_at cause (outcome x, final x, t0 ++ trace x).
Proof.
  intros H0 Hx. unfold fails_at in *. crunch.
  destruct (outcome x) as [a|e|].
  - apply Forall_app. split; assumption.
  - destruct Hx as (tr & c & r & w' & Ht & Hr & Hf & Hc).
    exists (t0 ++ tr), c, r, w'. rewrite Ht, app_assoc.
    split; [reflexivity|]. split; [apply Forall_app; split; assumption|].
    split; assumption.
  - apply Forall_app. split; assumption.
Qed.

Lemma fails_bind {A B} (m : M W A) (k : A -> M W B) (w : W) :
  fails_at cause (m w) -> (forall a w', fails_at cause (k a w')) ->
  fails_at cause (bind m k w).
Proof.
  intros Hm Hk. rewrite bind_run.
  destruct (outcome (m w)) as [a|e|] eqn:Ho.
  - apply (fails_after (trace (m w)) (k a (final (m w)))); [|apply Hk].
    unfold fails_at in Hm. rewrite Ho in Hm. exact Hm.
  - unfold fails_at in *. crunch. rewrite Ho in Hm. exact Hm.
  - unfold fails_at in *. crunch. rewrite Ho in Hm. exact Hm.
Qed.

(** A call whose answer is tested: the test may raise over the answer. *)
Lemma fails_ask {A} (c : Call) (t : Val -> option bool) (k : bool -> M W A) (w : W) :
  (forall v, t v = None -> cause c v ValueError) ->
  (forall b w', fails_at cause (k b w')) ->
  fails_at cause (bind (call ext c) (fun v => bind (test t v) k) w).
Proof.
  intros Ht Hk. rewrite bind_run, call_run.
  destruct (ext c w) as [[v|e] w'] eqn:Hc; crunch.
  - rewrite test_bind. destruct (t v) as [b|] eqn:Hv.
    + apply (fails_after [Called c (Returns v) w'] (k b w')); [|apply Hk].
      repeat constructor.
    + unfold fails_at. crunch.
      exists [], c, (Returns v), w'. rewrite app_nil_r.
      repeat split; [constructor|]. right. exists v. split; [reflexivity|auto].
  - unfold fails_at. crunch.
    exists [], c, (Raises e), w'. repeat split; [constructor|left; reflexivity].
Qed.

Lemma fails_question (c : Call) (t : Val -> option bool) (w : W) :
  (forall v, t v = None -> cause c v ValueError) ->
  fails_at cause (bind (call ext c) (test t) w).
Proof.
  intros Ht. rewrite bind_run, call_run.
  destruct (ext c w) as [[v|e] w'] eqn:Hc; crunch.
  - rewrite test_run. unfold fails_at. crunch. rewrite app_nil_r.
    destruct (t v) as [b|] eqn:Hv; [repeat constructor|].
    exists [], c, (Returns v), w'.
    repeat split; [constructor|]. right. exists v. split; [reflexivity|auto].
  - unfold fails_at. crunch.
    exists [], c, (Raises e), w'. repeat split; [constructor|left; reflexivity].
Qed.

Lemma fails_run_calls (cs : list Call) (w : W) : fails_at cause (run_calls ext cs w).
Proof.
  revert w. induction cs as [|c cs IH]; intros w; [apply fails_ret|].
  cbn [run_calls]. apply fails_bind; [apply fails_call|]. intros _ w'. apply IH.
Qed.

Lemma fails_while (c : M W bool) (b : M W unit) (fuel : nat) (w : W) :
  (forall w, fails_at cause (c w)) -> (forall w, fails_at cause (b w)) ->
  fails_at cause (while fuel c b w).
Proof.
  intros Hc Hb. revert w. induction fuel as [|n IH]; intros w; [constructor|].
  cbn [while]. apply fails_bind; [apply Hc|].
  intros [] w'; [|apply fails_ret].
  apply fails_bind; [apply Hb|]. intros _ w''. apply IH.
Qed.
End Fails.

Lemma fails_train {W} (ext : Call -> W -> Reply * W) (E : Emulator)
    (auto message : bool) (fuel : nat) (w : W) :
  fails_at (train_raises E) (train ext E auto message fuel w).
Proof.
  assert (Hq : forall c, In c [doing E; still E; want_final E] ->
            forall v, truth v = None -> train_raises E c v ValueError).
  { intros c Hc v Hv. split; [reflexivity|]. left. split; assumption. }
  unfold train. apply fails_bind; [apply fails_call|]. intros _ w1.
  apply fails_bind.
  - apply fails_while; intros w2.
    + unfold guard. apply fails_question, Hq. left. reflexivity.
    + unfold round.
      apply fails_bind; [apply (fails_run_calls ext _ [_; _; _; _; _; _; _; _])|].
      intros _ w3. apply fails_ask; [apply Hq; right; left; reflexivity|].
      intros [] w4; [|apply fails_ret].
      unfold promote. apply fails_bind; [apply fails_print|].
      intros _ w5. apply (fails_run_calls ext _ [_; _; _; _; _; _]).
  - intros _ w2. apply fails_ask; [apply Hq; right; right; left; reflexivity|].
    intros final w3.
    apply fails_bind; [|intros _ w4; apply fails_ret].
    destruct final; [|apply fails_ret].
    unfold final_build. apply fails_bind; [apply fails_print|]. intros _ w4.
    apply fails_ask.
    { intros v Hv. split; [reflexivity|]. right. split; [reflexivity|exact Hv]. }
    intros fold w5.
    apply fails_bind; [|intros _ w6; apply (fails_run_calls ext _ [_; _; _; _; _])].
    destruct fold; [|apply fails_ret].
    apply fails_bind; [apply fails_call|]. intros _ w6. apply fails_ret.
Qed.

(** X1.  [train] catches nothing, and raises nothing itself but over the
    answer of a call.  When a run fails, its last event is a call, every
    earlier call returned and the state is the one that call left: nothing
    is called after a failure.  Either that call raised the exception the
    run fails with; or the exception is [ValueError] and the call is one of
    [doing_training], [check_still_training] and [do_final_build], or the
    read of [noV], and returned a numpy array of several items, which the
    test of line 75, 93, 103 or 107 cannot take for true or false.  When a
    run does not fail, every call it made returned. *)
Theorem train_fails_only_over_a_call {W} (ext : Call -> W -> Reply * W)
    (E : Emulator) (auto message : bool) (fuel : nat) (w : W) :
  let x := train ext E auto message fuel w in
  match outcome x with
  | Err e =>
      exists tr c r w',
        trace x = tr ++ [Called c r w'] /\
        Forall event_returned tr /\ final x = w' /\
        (r = Raises e \/
         exists v, r = Returns v /\ e = ValueError /\
           ((In c [doing E; still E; want_final E] /\ truth v = None) \/
            (c = read_noV E /\ ne_zero_truth v = None)))
  | _ => Forall event_returned (trace x)
  end.
Proof. apply fails_train. Qed.

Section PlotStops.
Context {W : Type}.
Variable ext : Call -> W -> Reply * W.


Lemma first_size_raises (v : Val) (e : Exn) : first_size v = Err e -> plot_raises e.
Proof.
  unfold first_size, plot_raises. intros H.
  repeat match type of H with
         | context [match ?x with _ => _ end] => destruct x
         | context [if ?x then _ else _] => destruct x
         end; inversion H; auto.
Qed.

Lemma stops_str (v : Val) (w : W) : stops plot_raises (str ext v w).
Proof.
  destruct v as [|[]| | | | |]; try apply stops_ret;
    (apply stops_bind; [apply stops_call|]); intros [] w';
    try apply stops_ret; apply stops_raise; right; left; reflexivity.
Qed.

Lemma stops_labels (E : Emulator) (dim : Z) (plot_dims : list Z)
    (customLabels : list string) (w : W) :
  stops plot_raises (labels ext E dim plot_dims customLabels w).
Proof.
  assert (Hi : forall A (l : list A) i (w' : W), stops plot_raises (item l i w'))
    by (intros; apply stops_item; left; reflexivity).
  unfold labels.
  destruct (is_one_d dim plot_dims), customLabels as [|l0 r].
  all: repeat first
    [ apply stops_ret
    | match goal with |- context [if ?b then _ else _] => destruct b end
    | apply stops_bind;
      [first [apply stops_call | apply Hi | apply stops_str]|intros ? ?] ].
Qed.

Lemma stops_plot (E : Emulator) (plot_dims fixed_dims : list Z)
    (fixed_vals : list Q) (mean_or_var : string) (customLabels : list string) (w : W) :
  stops plot_raises (plot ext E plot_dims fixed_dims fixed_vals mean_or_var customLabels w).
Proof.
  unfold plot.
  apply stops_bind; [apply stops_call|]. intros v w1.
  apply stops_bind; [apply stops_lift, first_size_raises|]. intros dim w2.
  apply stops_bind; [apply stops_print|]. intros _ w3.
  apply stops_bind; [apply stops_labels|]. intros [xl yl] w4.
  unfold predict_on_grid.
  repeat first [apply stops_ret | apply stops_bind; [apply stops_call|intros ? ?]].
Qed.
End PlotStops.

(** ** [train]: a guard that never says no *)

Section Forever.
Context {W : Type}.
Variable ext : Call -> W -> Reply * W.
Variable E : Emulator.
Variable message : bool.
Hypothesis Hret : forall c w, exists v, (ext c w).1 = Returns v.
Hypothesis Hg : forall w v, (ext (doing E) w).1 = Returns v -> truthy v = true.
Hypothesis Hs : forall w v, (ext (still E) w).1 = Returns v -> truth v <> None.

Lemma run_calls_returns (cs : list Call) (w : W) :
  outcome (run_calls ext cs w) = Ok tt.
Proof.
  revert w. induction cs as [|c cs IH]; intros w; [reflexivity|].
  cbn [run_calls]. rewrite bind_run, call_run.
  destruct (Hret c w) as [v ->]. crunch. apply IH.
Qed.

Lemma round_returns (w : W) :
  outcome (round ext E message w) = Ok tt /\
  length (check_replies (trace (round ext E message w))) = 1.
Proof.
  pose proof (run_calls_returns [_; _; _; _; _; _; _; _] w
              : outcome (validate ext E message w) = Ok tt) as Hv.
  destruct (Hret (still E) (final (validate ext E message w))) as [v Hr].
  destruct (truth v) as [b|] eqn:Ht; [|destruct (Hs _ _ Hr Ht)].
  destruct (round_answer ext E message w v
              (ext (still E) (final (validate ext E message w))).2 b Hv) as (Hc & Ho & _);
    [rewrite <- Hr; apply surjective_pairing|exact Ht|].
  rewrite Hc, Ho. split; [|reflexivity].
  destruct b; [|reflexivity].
  unfold promote. rewrite bind_run, print_run. crunch.
  apply (run_calls_returns [_; _; _; _; _; _]).
Qed.

Lemma loop_forever (fuel : nat) (w : W) :
  let x := while fuel (guard ext E) (round ext E message) w in
  outcome x = OutOfFuel /\ length (check_replies (trace x)) = fuel.
Proof.
  cbn zeta. revert w. induction fuel as [|n IH]; intros w; [split; reflexivity|].
  cbn [while]. rewrite bind_run, guard_run.
  destruct (Hret (doing E) w) as [v Hv]. rewrite Hv.
  pose proof (Hg w v Hv) as Hyes. unfold truthy in Hyes.
  destruct (truth v) as [[]|]; try discriminate Hyes. crunch.
  rewrite bind_run. destruct (round_returns (ext (doing E) w).2) as [-> Hr]. crunch.
  destruct (IH (final (round ext E message (ext (doing E) w).2))) as [-> Hn].
  split; [reflexivity|].
  unfold check_replies in *.
  rewrite (answers_app _ _ [_]), answers_app, !length_app, Hr, Hn. reflexivity.
Qed.
End Forever.

(** X12.  The loop of [train] has no exit of its own: when no call raises,
    [doing_training] never answers no and every answer of
    [check_still_training] can be taken for true or false, a run cut off
    after [fuel] evaluations of the guard has not returned and has gone
    through [fuel] whole rounds, whatever [fuel] is.  The last condition is
    there because the test of line 93 raises [ValueError] over a numpy array
    of several items, which ends the run. *)
Theorem train_loops_while_the_guard_holds {W} (ext : Call -> W -> Reply * W) (E : Emulator)
    (auto message : bool) (fuel : nat) (w : W) :
  (forall c w, exists v, (ext c w).1 = Returns v) ->
  (forall w v, (ext (doing E) w).1 = Returns v -> truthy v = true) ->
  (forall w v, (ext (still E) w).1 = Returns v -> truth v <> None) ->
  let x := train ext E auto message fuel w in
  outcome x = OutOfFuel /\ length (check_replies (trace x)) = fuel.
Proof.
  intros Hret Hg Hs. cbn zeta. unfold train. rewrite bind_run, call_run.
  destruct (Hret (CallMeth E.(tv_conf) Meth.auto_train [VBool auto] []) w) as [v ->].
  crunch. rewrite bind_run.
  destruct (loop_forever ext E message Hret Hg Hs fuel
              (ext (CallMeth E.(tv_conf) Meth.auto_train [VBool auto] []) w).2)
    as [-> Hn].
  crunch. split; [reflexivity|].
  unfold check_replies in *. rewrite (answers_app _ _ [_]), length_app, Hn. reflexivity.
Qed.

Lemma train_loops_while_the_guard_holds_witness :
  outcome (train (always (VBool true)) Spec.emu true false 3 tt) = OutOfFuel /\
  length (check_replies (trace (train (always (VBool true)) Spec.emu true false 3 tt)))
  = 3.
Proof.
  apply (train_loops_while_the_guard_holds (always (VBool true)) Spec.emu true false 3 tt).
  - intros c w. exists (VBool true). reflexivity.
  - intros w v H. injection H as <-. reflexivity.
  - intros w v H. injection H as <-. discriminate.
Defined.

(** The third condition cannot be dropped: no call raises and the guard
    says yes, but the first answer of [check_still_training] has no truth
    value, and the run ends there with [ValueError], after [auto_train], the
    guard, the eight calls of the round and the question. *)
Example train_stops_on_an_undecided_answer :
  outcome (train undecided Spec.emu true false 3 tt) = Err ValueError /\
  length (trace (train undecided Spec.emu true false 3 tt)) = 11 /\
  last (actions (trace (train undecided Spec.emu true false 3 tt)))
  = Some (Do (still Spec.emu)).
Proof. repeat split; vm_compute; reflexivity. Qed.

(** ** [train]: how often each method is called *)

(** X3.  In a run of [train] that returns, with [rounds] the number of
    rounds (the answers of [check_still_training]), [promotions] the number
    of those that were yes, and the final build done or not: the optimiser
    runs once per round and once more in the final build; each diagnostic
    runs once per round; each of the two saves once per round and once in
    the final build; [remake] is called three times per round, three times
    per promotion and twice in the final build; the validation block is
    folded into the training block once per promotion and once more in a
    final build that found [noV != 0]; the partition is advanced and a new
    block chosen once per promotion; the guard is asked once more than there
    are rounds; [auto_train] and [do_final_build] are called once; [choose_T],
    [choose_V] and [__str__] never. *)
Theorem train_counts {W} (ext : Call -> W -> Reply * W) (E : Emulator)
    (auto message : bool) (fuel : nat) (w : W) (a : Val) :
  outcome (train ext E auto message fuel w) = Ok a ->
  let tr := trace (train ext E auto message fuel w) in
  let rounds := length (check_replies tr) in
  let promotions := length (List.filter id (check_replies tr)) in
  let final := match final_choice tr with Some _ => 1 | None => 0 end in
  let fold := match final_choice tr with Some true => 1 | _ => 0 end in
  forall m : Meth.t,
    count_of (calls_method m) (actions tr) =
    match m with
    | Meth.auto_train | Meth.do_final_build => 1
    | Meth.doing_training => rounds + 1
    | Meth.check_still_training
    | Meth.mahalanobis_distance | Meth.indiv_standard_error => rounds
    | Meth.llhoptimize_full
    | Meth.final_beliefs | Meth.final_design_points => rounds + final
    | Meth.remake => 3 * rounds + 3 * promotions + 2 * final
    | Meth.incVinT => promotions + fold
    | Meth.next_Vset | Meth.choose_new_V => promotions
    | Meth.choose_T | Meth.choose_V | Meth.__str__ => 0
    end.
Proof.
  intros Ha. cbn zeta. intros m.
  destruct (train_run ext E message auto fuel w) as (rest & [_ Hf] & Hok).
  cbn zeta in *. destruct (Hok a Ha) as (-> & _). rewrite app_nil_r in Hf.
  rewrite (Hf a Ha), count_of_train.
  destruct (final_choice _) as [[]|], m; vm_compute count_of; lia.
Qed.

Lemma train_counts_witness :
  outcome (Spec.sample_run true) = Ok VNone /\
  count_of (calls_method Meth.llhoptimize_full) (actions (trace (Spec.sample_run true)))
  = 4 /\
  count_of (calls_method Meth.remake) (actions (trace (Spec.sample_run true))) = 17 /\
  count_of (calls_method Meth.incVinT) (actions (trace (Spec.sample_run true))) = 3.
Proof.
  split; [vm_compute; reflexivity|].
  split; [|split].
  - exact (train_counts (Spec.closing VNone) Spec.emu true false 10 (Spec.sample true)
             VNone ltac:(vm_compute; reflexivity) Meth.llhoptimize_full).
  - exact (train_counts (Spec.closing VNone) Spec.emu true false 10 (Spec.sample true)
             VNone ltac:(vm_compute; reflexivity) Meth.remake).
  - exact (train_counts (Spec.closing VNone) Spec.emu true false 10 (Spec.sample true)
             VNone ltac:(vm_compute; reflexivity) Meth.incVinT).
Defined.

(** ** [train]: what it touches *)

(** X4.  Whatever happens, [train] makes no object and calls no module
    function: each of its actions is a message, the read of [tv_conf.noV],
    or a method call on one of the emulator's [tv_conf], [opt_T], [training],
    [validation], [post], [beliefs] and [all_data].  The hyperparameters, the
    basis, the kernel and the configuration are never called or read. *)
Theorem train_uses_components_only {W} (ext : Call -> W -> Reply * W) (E : Emulator)
    (auto message : bool) (fuel : nat) (w : W) :
  Forall (train_may E) (actions (trace (train ext E auto message fuel w))).
Proof.
  destruct (train_run ext E message auto fuel w) as (rest & [Hp _] & _).
  cbn zeta in Hp. eapply Forall_prefix_of; [exact Hp|].
  unfold train_actions. constructor; [cbn; auto 10|].
  apply Forall_app. split.
  - apply loop_actions_Forall. intros more.
    destruct more;
      cbn [round_actions validate_actions rebuilt promote_actions final_actions app];
      repeat (apply List.Forall_cons; [cbn; first [exact I|split; reflexivity|auto 10]|]);
      apply List.Forall_nil.
  - destruct (final_choice _) as [[]|];
      cbn [round_actions validate_actions rebuilt promote_actions final_actions app];
      repeat (apply List.Forall_cons; [cbn; first [exact I|split; reflexivity|auto 10]|]);
      apply List.Forall_nil.
Qed.

(** ** [setup]: the whole wiring *)

Section Wiring.
Context {W : Type}.
Variable ext : Call -> W -> Reply * W.

Lemma star_items (v : Val) (w : W) :
  star v w =
  (match items_of v with Some xs => Ok xs | None => Err TypeError end, w, []).
Proof. destruct v; reflexivity. Qed.

Lemma unpack2_items (v : Val) (w : W) :
  unpack2 v w =
  (match items_of v with
   | Some [a; b] => Ok (a, b)
   | Some _ => Err ValueError
   | None => Err TypeError
   end, w, []).
Proof.
  destruct v as [| | | |s|k xs|].
  1-4, 7: reflexivity.
  - cbn [unpack2 items_of].
    destruct (list_ascii_of_string s) as [|a [|b [|c r]]]; reflexivity.
  - destruct xs as [|a [|b [|c r]]]; reflexivity.
Qed.




Ltac last_event :=
  match goal with
  | |- exists tr c r w', ?t = _ /\ _ => exists (removelast t)
  end;
  eexists _, _, _; cbn [removelast app];
  split; [reflexivity|];
  split; [repeat constructor|];
  split; [reflexivity|].

Ltac blame :=
  split; [discriminate|];
  let e := fresh "e" in
  let H := fresh in
  intros e H; injection H as <-; last_event;
  first
    [ left; reflexivity
    | right; eexists; split; [reflexivity|];
      first
        [ left; split; [reflexivity|]; split; [assumption|reflexivity]
        | right; split; [first [left; reflexivity|right; reflexivity]|];
          split; [reflexivity|];
          match goal with
          | H : items_of ?v = _ |- context [items_of ?v] => rewrite H
          end;
          first [reflexivity|split; [discriminate|reflexivity]] ] ].

Ltac called' :=
  rewrite bind_run, call_run;
  let v := fresh "v" in
  let e := fresh "e" in
  let w := fresh "w" in
  destruct (ext _ _) as [[v|e] w]; crunch; [|blame].

Ltac starred' :=
  rewrite bind_run;
  match goal with
  | |- context [star ?v ?w] =>
      let l := fresh "l" in
      let H := fresh "Hitems" in
      rewrite (star_items v w);
      destruct (items_of v) as [l|] eqn:H; crunch; [|blame]
  end.

Ltac unpacked' :=
  rewrite bind_run;
  match goal with
  | |- context [unpack2 ?v ?w] =>
      let H := fresh "Hpair" in
      rewrite (unpack2_items v w);
      destruct (items_of v) as [[|? [|? [|? ?]]]|] eqn:H; crunch;
      [blame|blame| |blame|blame]
  end.

(** X6.  [setup] always ends, and when it fails it fails at its last
    call, every earlier call having returned and the state being as that
    call left it.  Either that call raised the exception, which [setup]
    passes on; or it is the read of [config.tv_config], whose value cannot be
    iterated, and the exception is [TypeError]; or it is [choose_T] or
    [choose_V], whose value is not a pair, and the exception is [TypeError]
    when the value cannot be iterated and [ValueError] when it has not two
    items: no [Data] has been made by then. *)
Theorem setup_failure (config_file : string) (datashuffle scaleinputs : bool) (w : W) :
  let x := setup ext config_file datashuffle scaleinputs w in
  outcome x <> OutOfFuel /\
  forall e, outcome x = Err e ->
    exists tr c r w',
      trace x = tr ++ [Called c r w'] /\
      Forall event_returned tr /\
      final x = w' /\
      (r = Raises e \/
       exists v, r = Returns v /\
         ((reads Attr.tv_config (Do c) = true /\ items_of v = None /\ e = TypeError) \/
          ((calls_method Meth.choose_T (Do c) = true \/
            calls_method Meth.choose_V (Do c) = true) /\
           returned Fn.Data tr = [] /\
           match items_of v with
           | None => e = TypeError
           | Some l => length l <> 2 /\ e = ValueError
           end))).
Proof.
  cbn zeta. unfold setup.
  do 6 called'. starred'. do 7 called'. unpacked'. called'. unpacked'. do 5 called'.
  rewrite ret_run; crunch. split; discriminate.
Qed.
End Wiring.


Lemma setup_failure_witness :
  outcome (setup (always VNone) "emulator.conf" true true tt) = Err TypeError /\
  exists tr c r w',
    trace (setup (always VNone) "emulator.conf" true true tt) = tr ++ [Called c r w'] /\
    Forall event_returned tr /\
    final (setup (always VNone) "emulator.conf" true true tt) = w'.
Proof.
  split; [reflexivity|].
  destruct (setup_failure (always VNone) "emulator.conf" true true tt) as [_ H].
  destruct (H TypeError ltac:(reflexivity)) as (tr & c & r & w' & Ht & Hr & Hf & _).
  exists tr, c, r, w'. auto.
Defined.

(** ** [plot]: the dimension and the labels *)

Section Labels.
Context {W : Type}.
Variable ext : Call -> W -> Reply * W.
Variable E : Emulator.
Variables (plot_dims fixed_dims : list Z) (fixed_vals : list Q) (mean_or_var : string).

Lemma plot_after_dim (customLabels : list string) (w : W) (v : Val) (w1 : W) (dim : Z) :
  ext (read_inputs E) w = (Returns v, w1) ->
  first_size v = Ok dim ->
  plot ext E plot_dims fixed_dims fixed_vals mean_or_var customLabels w =
  let lx := labels ext E dim plot_dims customLabels w1 in
  let head := [Called (read_inputs E) (Returns v) w1; Printed (nl +:+ "***Generating plot***")] in
  match outcome lx with
  | Ok (xl, yl) =>
      let gx := predict_on_grid ext E dim (is_one_d dim plot_dims) xl yl
                  plot_dims fixed_dims fixed_vals mean_or_var (final lx) in
      (outcome gx, final gx, head ++ trace lx ++ trace gx)
  | Err e => (Err e, final lx, head ++ trace lx)
  | OutOfFuel => (OutOfFuel, final lx, head ++ trace lx)
  end.
Proof.
  intros Hr Hdim. cbn zeta. unfold plot.
  rewrite bind_run, call_run. fold (read_inputs E). rewrite Hr. crunch.
  rewrite bind_run, lift_run, Hdim. crunch.
  rewrite bind_run, print_run. crunch.
  rewrite bind_run.
  destruct (outcome (labels ext E dim plot_dims customLabels w1)) as [[xl yl]|e|];
    reflexivity.
Qed.

(** Once the labels are there, the rest is the grid, its state, the
    posterior and the rendering. *)
Lemma plot_with_labels (customLabels : list string) (w : W) (v : Val) (w1 : W) (dim : Z)
    (xl yl : string) (w2 : W) (tl : list (Event W)) :
  ext (read_inputs E) w = (Returns v, w1) ->
  first_size v = Ok dim ->
  labels ext E dim plot_dims customLabels w1 = (Ok (xl, yl), w2, tl) ->
  exists grid predict post',
    follows (plot ext E plot_dims fixed_dims fixed_vals mean_or_var customLabels w)
      (plot_actions E plot_dims fixed_dims fixed_vals mean_or_var
         (actions tl) dim (is_one_d dim plot_dims) xl yl grid predict post').
Proof.
  intros Hr Hdim Hl. rewrite (plot_after_dim customLabels w v w1 dim Hr Hdim).
  cbn zeta. rewrite Hl. crunch.
  destruct (grid_run ext E plot_dims fixed_dims fixed_vals mean_or_var
              dim (is_one_d dim plot_dims) xl yl w2)
    as (grid & predict & post' & [Hp Hf] & _).
  cbn zeta in *. exists grid, predict, post'. unfold plot_actions.
  split; crunch.
  - cbn [app]. norm_actions. do 2 apply prefix_cons. apply prefix_app, Hp.
  - intros a Ha. cbn [app]. norm_actions. rewrite (Hf a Ha). reflexivity.
Qed.

Lemma plot_without_labels (customLabels : list string) (w : W) (v : Val) (w1 : W)
    (dim : Z) (e : Exn) :
  ext (read_inputs E) w = (Returns v, w1) ->
  first_size v = Ok dim ->
  labels ext E dim plot_dims customLabels w1 = (Err e, w1, []) ->
  plot ext E plot_dims fixed_dims fixed_vals mean_or_var customLabels w =
  (Err e, w1, [Called (read_inputs E) (Returns v) w1; Printed (nl +:+ "***Generating plot***")]).
Proof.
  intros Hr Hdim Hl. rewrite (plot_after_dim customLabels w v w1 dim Hr Hdim).
  cbn zeta. rewrite Hl. reflexivity.
Qed.

Lemma labels_default_flat (dim : Z) (w : W) :
  is_one_d dim plot_dims = false ->
  labels ext E dim plot_dims [] w =
  (match plot_dims !! 0%nat with
   | None => Err IndexError
   | Some d0 =>
       if (dim =? 1)%Z then Ok ("input " +:+ str_int d0, "output ")
       else match plot_dims !! 1%nat with
            | None => Err IndexError
            | Some d1 => Ok ("input " +:+ str_int d0, "input " +:+ str_int d1)
            end
   end, w, []).
Proof.
  intros H. unfold labels. rewrite H.
  rewrite bind_run, item_run. crunch.
  destruct (plot_dims !! 0%nat) as [d0|]; [|reflexivity].
  destruct (dim =? 1)%Z; [reflexivity|].
  rewrite bind_run, item_run. crunch.
  destruct (plot_dims !! 1%nat) as [d1|]; reflexivity.
Qed.

(** X7.  [plot] always ends.  It reads [E.training.inputs] first, and
    goes on to print its message exactly when that read returned a value
    whose first item has a size; otherwise it stops right there, with the
    exception the read raised or with the one [inputs[0].size] raises, and
    nothing else is called.  On an emulator without a training point the
    exception is [IndexError]. *)
Theorem plot_needs_a_dimension (customLabels : list string) (w : W) :
  let x := plot ext E plot_dims fixed_dims fixed_vals mean_or_var customLabels w in
  let r := (ext (read_inputs E) w).1 in
  let w1 := (ext (read_inputs E) w).2 in
  outcome x <> OutOfFuel /\
  match r with
  | Raises e => x = (Err e, w1, [Called (read_inputs E) r w1])
  | Returns v =>
      match first_size v with
      | Ok dim =>
          exists rest,
            trace x = Called (read_inputs E) r w1 :: Printed (nl +:+ "***Generating plot***") :: rest
      | Err e => x = (Err e, w1, [Called (read_inputs E) r w1])
      | OutOfFuel => False
      end
  end /\
  (forall k, r = Returns (VSeq k []) ->
     outcome x = Err IndexError /\ actions (trace x) = [Do (read_inputs E)]).
Proof.
  cbn zeta.
  split; [apply (plot_tame ext E plot_dims fixed_dims fixed_vals mean_or_var
                   customLabels w)|].
  destruct (ext (read_inputs E) w) as [r w1] eqn:Hr. cbn [fst snd].
  assert (Hfail : forall v e, r = Returns v -> first_size v = Err e ->
            plot ext E plot_dims fixed_dims fixed_vals mean_or_var customLabels w = (Err e, w1, [Called (read_inputs E) r w1])).
  { intros v e -> He. unfold plot. rewrite bind_run, call_run.
    fold (read_inputs E). rewrite Hr. crunch.
    rewrite bind_run, lift_run, He. reflexivity. }
  split.
  - destruct r as [v|e].
    + destruct (first_size v) as [dim|e|] eqn:Hd.
      * rewrite (plot_after_dim customLabels w v w1 dim Hr Hd). cbn zeta.
        destruct (outcome _) as [[xl yl]|e|]; eexists; reflexivity.
      * apply (Hfail v e eq_refl Hd).
      * unfold first_size in Hd.
        repeat match type of Hd with
               | context [match ?x with _ => _ end] => destruct x
               | context [if ?x then _ else _] => destruct x
               end; discriminate Hd.
    + unfold plot. rewrite bind_run, call_run. fold (read_inputs E).
      rewrite Hr. reflexivity.
  - intros k ->. rewrite (Hfail (VSeq k []) IndexError eq_refl eq_refl).
    split; reflexivity.
Qed.

(** X8.  Default labels when the plot is not a one-dimensional plot of
    multidimensional inputs, that is with several plot dimensions or with
    inputs of dimension 1 or less.  The construction of the labels calls
    nothing.  Without a first plot dimension [plot] stops with [IndexError]
    right after its message.  With one, the x label is "input " followed by
    it; for inputs of dimension 1 the y label is "output " and nothing else,
    and [beliefs.output] is not read; otherwise the y label is "input "
    followed by the second plot dimension, and without a second one [plot]
    stops with [IndexError].  [one_d] is false in the calls that follow. *)
Theorem plot_default_labels_flat (w : W) (v : Val) (w1 : W) (dim : Z) :
  ext (read_inputs E) w = (Returns v, w1) ->
  first_size v = Ok dim ->
  is_one_d dim plot_dims = false ->
  let x := plot ext E plot_dims fixed_dims fixed_vals mean_or_var [] w in
  let stopped :=
    x = (Err IndexError, w1, [Called (read_inputs E) (Returns v) w1; Printed (nl +:+ "***Generating plot***")]) in
  match plot_dims !! 0%nat with
  | None => stopped
  | Some d0 =>
      if (dim =? 1)%Z then
        exists grid predict post',
          follows x (plot_actions E plot_dims fixed_dims fixed_vals mean_or_var
                       [] dim false ("input " +:+ str_int d0) "output "
                       grid predict post')
      else
        match plot_dims !! 1%nat with
        | None => stopped
        | Some d1 =>
            exists grid predict post',
              follows x (plot_actions E plot_dims fixed_dims fixed_vals mean_or_var
                           [] dim false ("input " +:+ str_int d0)
                           ("input " +:+ str_int d1) grid predict post')
        end
  end.
Proof.
  intros Hr Hdim Hone. cbn zeta.
  pose proof (labels_default_flat dim w1 Hone) as Hl.
  pose proof (plot_with_labels [] w v w1 dim) as Hgo.
  rewrite Hone in Hgo.
  destruct (plot_dims !! 0%nat) as [d0|];
    [|apply (plot_without_labels [] w v w1 dim _ Hr Hdim Hl)].
  destruct (dim =? 1)%Z; [apply (Hgo _ _ _ _ Hr Hdim Hl)|].
  destruct (plot_dims !! 1%nat) as [d1|];
    [apply (Hgo _ _ _ _ Hr Hdim Hl)|apply (plot_without_labels [] w v w1 dim _ Hr Hdim Hl)].
Qed.

(** X9.  Default labels in a one-dimensional plot of multidimensional
    inputs: there is one plot dimension [d0]; [beliefs.output] is read once,
    after the message and before the grid is asked for; when it is the
    integer [n], the labels are "input " followed by [d0] and "output "
    followed by [n], and [one_d] is true in the calls that follow. *)
Theorem plot_default_labels_one_d (w : W) (v : Val) (w1 : W) (dim : Z) (n : Z) (w2 : W) :
  ext (read_inputs E) w = (Returns v, w1) ->
  first_size v = Ok dim ->
  is_one_d dim plot_dims = true ->
  ext (GetAttr E.(beliefs) Attr.output) w1 = (Returns (VInt n), w2) ->
  exists d0,
    plot_dims = [d0] /\
    exists grid predict post',
      follows (plot ext E plot_dims fixed_dims fixed_vals mean_or_var [] w)
        (plot_actions E plot_dims fixed_dims fixed_vals mean_or_var
           [Do (GetAttr E.(beliefs) Attr.output)] dim true
           ("input " +:+ str_int d0) ("output " +:+ str_int n) grid predict post').
Proof.
  intros Hr Hdim Hone Hout.
  assert (exists d0, plot_dims = [d0]) as [d0 Hd].
  { unfold is_one_d in Hone. apply andb_prop in Hone. destruct Hone as [Hlen _].
    destruct plot_dims as [|d0 [|d1 r]]; try discriminate Hlen. exists d0. reflexivity. }
  exists d0. split; [exact Hd|].
  pose proof (plot_with_labels [] w v w1 dim
                ("input " +:+ str_int d0) ("output " +:+ str_int n) w2
                [Called (GetAttr E.(beliefs) Attr.output) (Returns (VInt n)) w2]
                Hr Hdim) as Hgo.
  rewrite Hone in Hgo. apply Hgo.
  unfold labels. rewrite Hone, Hd.
  rewrite bind_run, item_run. crunch. cbn [lookup list_lookup].
  rewrite bind_run, call_run, Hout. reflexivity.
Qed.

(** X10.  With two custom labels or more, the labels are the first two,
    the others are ignored, whatever the dimension and the plot dimensions
    are: their construction calls nothing, reads neither [beliefs.output] nor
    [plot_dims], and the grid is asked for right after the message. *)
Theorem plot_custom_labels (l0 l1 : string) (others : list string)
    (w : W) (v : Val) (w1 : W) (dim : Z) :
  ext (read_inputs E) w = (Returns v, w1) ->
  first_size v = Ok dim ->
  exists grid predict post',
    follows (plot ext E plot_dims fixed_dims fixed_vals mean_or_var (l0 :: l1 :: others) w)
      (plot_actions E plot_dims fixed_dims fixed_vals mean_or_var
         [] dim (is_one_d dim plot_dims) l0 l1 grid predict post').
Proof.
  intros Hr Hdim.
  apply (plot_with_labels (l0 :: l1 :: others) w v w1 dim l0 l1 w1 [] Hr Hdim).
  apply (labels_custom ext E dim plot_dims l0 (l1 :: others) w1).
Qed.

(** X11.  When [plot] fails, it fails at its last call, which raised the
    exception, or with an [IndexError], [TypeError] or [AttributeError] of
    its own, from [inputs[0].size], from an index into [plot_dims] or
    [customLabels], or from [str]; in both cases every other call it made
    had returned.  When it returns, every call it made returned. *)
Theorem plot_fails_cleanly (customLabels : list string) (w : W) :
  let x := plot ext E plot_dims fixed_dims fixed_vals mean_or_var customLabels w in
  match outcome x with
  | Err e =>
      (exists tr c w',
         trace x = tr ++ [Called c (Raises e) w'] /\
         Forall event_returned tr /\ final x = w') \/
      (plot_raises e /\ Forall event_returned (trace x))
  | _ => Forall event_returned (trace x)
  end.
Proof. apply stops_plot. Qed.
End Labels.

Lemma plot_default_labels_flat_witness :
  exists grid predict post',
    follows (plot (Spec.ext VNone) Spec.emu [0; 1]%Z [] [] "mean" [] (Spec.sample true))
      (plot_actions Spec.emu [0; 1]%Z [] [] "mean" [] 2 false "input 0" "input 1"
         grid predict post').
Proof.
  exact (plot_default_labels_flat (Spec.ext VNone) Spec.emu [0; 1]%Z [] [] "mean"
           (Spec.sample true) (Spec.inputs_array (Spec.T (Spec.sample true)))
           (Spec.sample true) 2 eq_refl eq_refl eq_refl).
Defined.

Lemma plot_default_labels_one_d_witness :
  exists d0,
    [0%Z] = [d0] /\
    exists grid predict post',
      follows (plot (Spec.ext VNone) Spec.emu [0%Z] [1%Z] [0.5%Q] "mean" []
                 (Spec.sample true))
        (plot_actions Spec.emu [0%Z] [1%Z] [0.5%Q] "mean"
           [Do (GetAttr (VObj 2) Attr.output)] 2 true
           ("input " +:+ str_int d0) "output 0" grid predict post').
Proof.
  exact (plot_default_labels_one_d (Spec.ext VNone) Spec.emu [0%Z] [1%Z] [0.5%Q] "mean"
           (Spec.sample true) (Spec.inputs_array (Spec.T (Spec.sample true)))
           (Spec.sample true) 2 0 (Spec.sample true) eq_refl eq_refl eq_refl eq_refl).
Defined.

Lemma plot_custom_labels_witness :
  exists grid predict post',
    follows (plot (Spec.ext VNone) Spec.emu [0%Z] [1%Z] [0.5%Q] "var" ["x"; "y"; "z"]
               (Spec.sample true))
      (plot_actions Spec.emu [0%Z] [1%Z] [0.5%Q] "var" [] 2 true "x" "y"
         grid predict post').
Proof.
  exact (plot_custom_labels (Spec.ext VNone) Spec.emu [0%Z] [1%Z] [0.5%Q] "var"
           "x" "y" ["z"] (Spec.sample true)
           (Spec.inputs_array (Spec.T (Spec.sample true))) (Spec.sample true) 2
           eq_refl eq_refl).
Defined.
